(** * gcb: the request-gating pipeline of the GCS image upload service

    A shallow embedding of the Go sources (handlers.go, main.go, and the
    middleware, metrics, storage and configuration files) together with the
    properties of the gating pipeline: client identity resolution, the
    API-key and IP-allowlist gate, CORS handling, metrics instrumentation,
    route registration and file-type validation.

    Conventions.
    - A Go [string] is a byte string: Rocq's [string].
    - A Go [int]/[int64] that is only compared or printed is a [Z].
    - Mutable objects reached through pointers or interfaces
      ([http.ResponseWriter], the Prometheus vectors, the storage client)
      live in an explicit [World] that every handler threads through.
    - Packages of the Go standard library whose behaviour is fixed by bytes
      ([strings.Split], [strings.HasSuffix], [strings.Contains],
      [http.Header], [strconv.Itoa], the path cleaning of [http.ServeMux])
      are modelled by functions; those depending on Unicode tables or on
      the address grammar are operations of the class [GoLib], and every
      theorem holds for all its instances. The outcome of decoding a
      request body is part of the request.
    - Calls to [log] have no effect on any modelled state and are left out.
    - [invoked] is ghost state: every handler body records its entry
      there, so that reaching a handler can be stated. *)

From stdpp Require Import gmap strings list pretty.
From Stdlib Require Import ZArith Ascii String.
Local Open Scope Z_scope.

(** ** Package [strings], byte-level functions *)

Module GoStrings.

(** [s[n:]] for [n <= len(s)]. *)
Fixpoint drop_bytes (n : nat) (s : string) : string :=
  match n, s with
  | O, _ => s
  | S n', String _ s' => drop_bytes n' s'
  | S _, EmptyString => EmptyString
  end.

(** [strings.HasPrefix(s, prefix)]. *)
Definition HasPrefix (s pre : string) : bool := String.prefix pre s.

(** [strings.HasSuffix(s, suffix)]:
    [len(s) >= len(suffix) && s[len(s)-len(suffix):] == suffix]. *)
Definition HasSuffix (s suffix : string) : bool :=
  (String.length suffix <=? String.length s)%nat
  && String.eqb (drop_bytes (String.length s - String.length suffix) s) suffix.

(** [strings.Contains(s, substr)]: some position of [s] starts with
    [substr]. *)
Fixpoint Contains (s substr : string) : bool :=
  HasPrefix s substr
  || match s with
     | EmptyString => false
     | String _ s' => Contains s' substr
     end.

(** [strings.Split(s, string(sep))] for a one-byte separator: the pieces
    between the occurrences of [sep]; one more piece than occurrences. *)
Fixpoint Split (s : string) (sep : ascii) : list string :=
  match s with
  | EmptyString => [EmptyString]
  | String c s' =>
      if Ascii.eqb c sep then EmptyString :: Split s' sep
      else match Split s' sep with
           | piece :: rest => String c piece :: rest
           | [] => [String c EmptyString]
           end
  end.

(** The bytes of [s] before the first occurrence of [sep]
    (all of [s] when there is none). *)
Fixpoint before_first (sep : ascii) (s : string) : string :=
  match s with
  | EmptyString => EmptyString
  | String c s' => if Ascii.eqb c sep then EmptyString
                   else String c (before_first sep s')
  end.

End GoStrings.

(** ** Package [net/http]: header maps *)

Module GoHeader.

Definition byte_in (lo hi c : ascii) : bool :=
  (nat_of_ascii lo <=? nat_of_ascii c)%nat && (nat_of_ascii c <=? nat_of_ascii hi)%nat.

Definition is_lower (c : ascii) : bool := byte_in "a" "z" c.
Definition is_upper (c : ascii) : bool := byte_in "A" "Z" c.
Definition is_digit (c : ascii) : bool := byte_in "0" "9" c.

Definition to_upper (c : ascii) : ascii :=
  if is_lower c then ascii_of_nat (nat_of_ascii c - 32) else c.
Definition to_lower (c : ascii) : ascii :=
  if is_upper c then ascii_of_nat (nat_of_ascii c + 32) else c.

(** [textproto.validHeaderFieldByte]: the token characters of RFC 7230. *)
Definition validHeaderFieldByte (c : ascii) : bool :=
  is_lower c || is_upper c || is_digit c
  || existsb (Ascii.eqb c)
       ["!"; "#"; "$"; "%"; "&"; "'"; "*"; "+"; "-"; "."; "^"; "_"; "`"; "|"; "~"]%char.

Fixpoint all_bytes (p : ascii → bool) (s : string) : bool :=
  match s with
  | EmptyString => true
  | String c s' => p c && all_bytes p s'
  end.

(** The rewriting loop of [textproto.canonicalMIMEHeaderKey]: upper case
    for the first letter and after each dash, lower case elsewhere. *)
Fixpoint canon_from (upper : bool) (s : string) : string :=
  match s with
  | EmptyString => EmptyString
  | String c s' =>
      let c' := if upper then to_upper c else to_lower c in
      String c' (canon_from (Ascii.eqb c' "-") s')
  end.

(** [textproto.CanonicalMIMEHeaderKey]: a key with a byte that is not a
    token character is returned unchanged. *)
Definition CanonicalMIMEHeaderKey (s : string) : string :=
  if all_bytes validHeaderFieldByte s then canon_from true s else s.

(** [http.Header] is [map[string][]string], keyed by canonical names. *)
Abbreviation Header := (gmap string (list string)).

(** [h.Get(key)]: the first value of the canonical key, or the empty string. *)
Definition Get (h : Header) (key : string) : string :=
  match h !! CanonicalMIMEHeaderKey key with
  | Some (v :: _) => v
  | _ => EmptyString
  end.

(** [h.Set(key, value)]: replaces all values of the canonical key. *)
Definition Set_ (h : Header) (key value : string) : Header :=
  <[CanonicalMIMEHeaderKey key := [value]]> h.

End GoHeader.

Import GoStrings GoHeader.

(** ** Requests and the operations taken from Go's libraries *)

(** [multipart.FileHeader]: the fields the handlers read. *)
Record FileHeader := mkFileHeader {
  Filename : string;
  Size : Z;
  Content : string
}.

(** [SignedUrlRequest] of handlers.go. *)
Record SignedUrlRequest := mkSignedUrlRequest {
  sur_Filename : string;
  sur_ContentType : string
}.

(** The fields of [*http.Request] that the program reads, and the outcome
    of the two decoding calls made on it: [r.ParseMultipartForm(maxMemory)]
    (the files of the form by field, or the error text) and
    [json.NewDecoder(r.Body).Decode(&req)]. *)
Record Request := mkRequest {
  Method : string;
  URL_Path : string;
  Host : string;
  RemoteAddr : string;
  ReqHeader : Header;
  ParseMultipartForm : Z → string + list (string * FileHeader);
  Body_Decode : string + SignedUrlRequest
}.

(** Library operations with no byte-level definition here. [ParseIP],
    [ParseCIDR] and [SplitHostPort] return [None] where Go returns
    [nil] or an error. *)
Class GoLib := {
  TrimSpace : string → string;                (* strings.TrimSpace *)
  ToLower : string → string;                  (* strings.ToLower *)
  IP : Type;                                  (* net.IP *)
  IPNet : Type;                               (* net.IPNet *)
  ParseIP : string → option IP;               (* net.ParseIP *)
  ParseCIDR : string → option IPNet;          (* net.ParseCIDR, second result *)
  IPNet_Contains : IPNet → IP → bool;         (* IPNet.Contains *)
  SplitHostPort : string → option (string * string)   (* net.SplitHostPort *)
}.

(** ** Client identity and the two policy predicates (middleware file) *)

Section Identity.
Context `{GoLib}.

(** [ips[0]] of [getClientIP]: indexing, with [None] for an index out of
    range (a run-time panic in Go). *)
Definition first_forwarded (forwarded : string) : option string :=
  Split forwarded "," !! 0%nat.

(** [getClientIP]: priority CF-Connecting-IP > X-Real-IP >
    X-Forwarded-For > RemoteAddr. [None] stands for a panic. *)
Definition getClientIP_checked (r : Request) : option string :=
  let cfIP := Get (ReqHeader r) "CF-Connecting-IP" in
  if negb (String.eqb cfIP EmptyString) then Some cfIP else
  let realIP := Get (ReqHeader r) "X-Real-IP" in
  if negb (String.eqb realIP EmptyString) then Some realIP else
  let forwarded := Get (ReqHeader r) "X-Forwarded-For" in
  if negb (String.eqb forwarded EmptyString) then
    TrimSpace <$> first_forwarded forwarded
  else
    match SplitHostPort (RemoteAddr r) with
    | None => Some (RemoteAddr r)
    | Some (ip, _) => Some ip
    end.

(** The value used by the callers; the default is never taken
    (see [getClientIP_checked_total]). *)
Definition getClientIP (r : Request) : string :=
  default EmptyString (getClientIP_checked r).

(** The body of the loop of [isIPAllowed] for one entry: [true] is the
    [return true], [false] falls through to the next entry. *)
Definition entry_allows (clientIP : string) (parsedClientIP : IP)
    (allowedIP : string) : bool :=
  if Contains allowedIP "/" then
    match ParseCIDR allowedIP with
    | None => false                                   (* continue *)
    | Some ipNet => IPNet_Contains ipNet parsedClientIP
    end
  else String.eqb clientIP allowedIP.

Fixpoint isIPAllowed_loop (clientIP : string) (parsedClientIP : IP)
    (allowedIPs : list string) : bool :=
  match allowedIPs with
  | [] => false
  | allowedIP :: rest =>
      if entry_allows clientIP parsedClientIP allowedIP then true
      else isIPAllowed_loop clientIP parsedClientIP rest
  end.

(** [isIPAllowed]. *)
Definition isIPAllowed (clientIP : string) (allowedIPs : list string) : bool :=
  match ParseIP clientIP with
  | None => false
  | Some parsedClientIP => isIPAllowed_loop clientIP parsedClientIP allowedIPs
  end.

End Identity.

Fixpoint isOriginAllowed_loop (origin : string) (allowedOrigins : list string) : bool :=
  match allowedOrigins with
  | [] => false
  | allowed :: rest =>
      if String.eqb origin allowed then true else isOriginAllowed_loop origin rest
  end.

(** [isOriginAllowed]. *)
Definition isOriginAllowed (origin : string) (allowedOrigins : list string) : bool :=
  if (List.length allowedOrigins =? 0)%nat
     || ((List.length allowedOrigins =? 1)%nat
         && match allowedOrigins with
            | first :: _ => String.eqb first "*"
            | [] => false
            end)
  then true
  else isOriginAllowed_loop origin allowedOrigins.

(** ** Responses, metrics and the world threaded through the handlers *)

(** [UploadResponse] and [HealthResponse] of handlers.go. *)
Record UploadResponse := mkUploadResponse {
  Success : bool;
  URL : string;
  Message : string;
  Error : string
}.

Record HealthResponse := mkHealthResponse {
  Status : string;
  hr_Message : string
}.

(** A Prometheus vector: the value of each label tuple that was used.
    For the histogram the value is the number of observations (the
    observed durations are wall-clock time and are not modelled). Label
    values are taken to be valid UTF-8, which is what client_golang
    accepts; increments are atomic there and are single steps here. *)
Abbreviation Vec := (gmap (list string) nat).

(** [vec.WithLabelValues(lvs...).Inc()] / [.Observe(_)]. *)
Definition Inc (lvs : list string) (v : Vec) : Vec :=
  <[lvs := S (default 0%nat (v !! lvs))]> v.

(** The value of a label tuple, 0 when it was never used. *)
Definition value (v : Vec) (lvs : list string) : nat := default 0%nat (v !! lvs).

Record Metrics := mkMetrics {
  httpRequestsTotal : Vec;
  httpRequestDuration : Vec;
  signedURLCreatedTotal : Vec
}.

(** One [Write] on the response: the handlers write through
    [json.NewEncoder(w).Encode], the library handlers write text. *)
Inductive Chunk :=
| JsonUpload (v : UploadResponse)
| JsonHealth (v : HealthResponse)
| Exposition (m : Metrics)
| Text (s : string).

(** What the server's connection has seen for the current exchange. *)
Record Response := mkResponse {
  rs_header : Header;                 (* the map behind w.Header() *)
  rs_status : option (Z * Header);    (* status line and header block sent *)
  rs_body : list Chunk;               (* body writes, in order *)
  rs_hijacked : bool;                 (* connection taken over by Hijack *)
  rs_closed : bool                    (* conn.Close() on the hijacked connection *)
}.

Definition empty_response : Response :=
  mkResponse ∅ None [] false false.

(** [GCSClient]: the bucket it writes to. *)
Record GCSClient := mkGCSClient { bucketName : string }.

(** Calls that reach the storage collaborator. *)
Inductive StorageCall :=
| CallUploadImage (c : GCSClient) (h : FileHeader)
| CallSignedURL (c : GCSClient) (object contentType : string).

(** Which handler bodies were entered (ghost state, for stating that a
    handler was or was not reached). *)
Inductive HandlerId :=
| H_Health
| H_Metrics
| H_Upload (c : GCSClient)
| H_SignedUrl (c : GCSClient).

Record World := mkWorld {
  response : Response;
  wrappers : list Z;                  (* statusCode of each *responseWriter *)
  metrics : Metrics;
  storage_calls : list StorageCall;
  invoked : list HandlerId
}.

Definition with_response (f : Response → Response) (s : World) : World :=
  mkWorld (f (response s)) (wrappers s) (metrics s) (storage_calls s) (invoked s).
Definition with_wrappers (f : list Z → list Z) (s : World) : World :=
  mkWorld (response s) (f (wrappers s)) (metrics s) (storage_calls s) (invoked s).
Definition with_metrics (f : Metrics → Metrics) (s : World) : World :=
  mkWorld (response s) (wrappers s) (f (metrics s)) (storage_calls s) (invoked s).
Definition with_storage_call (c : StorageCall) (s : World) : World :=
  mkWorld (response s) (wrappers s) (metrics s) (storage_calls s ++ [c]) (invoked s).
Definition enter (h : HandlerId) (s : World) : World :=
  mkWorld (response s) (wrappers s) (metrics s) (storage_calls s) (invoked s ++ [h]).

(** The world at the start of an exchange: a new response, no wrapper yet;
    metrics and logs are those of the process. *)
Definition new_exchange (s : World) : World :=
  mkWorld empty_response [] (metrics s) (storage_calls s) (invoked s).

(** The storage collaborator (the Cloud Storage client behind
    [GCSClient.UploadImage] and [GCSClient.GenerateV4PutObjectSignedURL]):
    the result of a call, error text on the left and URL on the right,
    may depend on the calls made before. *)
Class Storage := {
  UploadImage : GCSClient → FileHeader → list StorageCall → string + string;
  GenerateV4PutObjectSignedURL :
    GCSClient → string → string → list StorageCall → string + string
}.

(** ** [http.ResponseWriter] and its two implementations *)

(** What the transport offers for [http.Hijacker]: HTTP/2 writers do not
    implement it, HTTP/1 writers do, and [Hijack] may still fail. *)
Inductive HijackCap := NotHijacker | HijackFails | HijackSucceeds.

(** The interface [http.ResponseWriter] with its two implementations:
    [connWriter] is the writer of net/http; [responseWriter i inner] is the
    struct of the metrics file, whose [statusCode] is cell [i] of
    [wrappers] and whose embedded writer is [inner]. *)
Inductive ResponseWriter :=
| connWriter (cap : HijackCap)
| responseWriter (i : nat) (inner : ResponseWriter).

(** [w.Header().Set(key, value)]; [Header] is promoted from the embedded
    writer, so both implementations reach the same map. *)
Definition Header_Set (key value : string) (s : World) : World :=
  with_response (fun rs =>
    mkResponse (Set_ (rs_header rs) key value) (rs_status rs) (rs_body rs)
               (rs_hijacked rs) (rs_closed rs)) s.

(** [WriteHeader] of net/http for the final status codes (200 and above)
    that the program uses: the first call sends the status line with the
    current header map; later calls, and calls on a hijacked connection,
    change nothing. *)
Definition conn_WriteHeader (code : Z) (s : World) : World :=
  with_response (fun rs =>
    if rs_hijacked rs then rs
    else match rs_status rs with
         | Some _ => rs
         | None => mkResponse (rs_header rs) (Some (code, rs_header rs))
                              (rs_body rs) (rs_hijacked rs) (rs_closed rs)
         end) s.

(** [bodyAllowedForStatus] of net/http. *)
Definition bodyAllowedForStatus (code : Z) : bool :=
  negb ((100 <=? code) && (code <=? 199)) && negb (code =? 204) && negb (code =? 304).

(** [Write] of net/http: sends status 200 first when no status was sent;
    nothing is written on a hijacked connection or for a status without
    body. (The body of an answer to HEAD, which net/http discards, is
    kept.) *)
Definition conn_Write (c : Chunk) (s : World) : World :=
  let s1 := if rs_hijacked (response s) then s
            else match rs_status (response s) with
                 | None => conn_WriteHeader 200 s
                 | Some _ => s
                 end in
  with_response (fun rs =>
    if rs_hijacked rs then rs
    else match rs_status rs with
         | Some (code, _) =>
             if bodyAllowedForStatus code
             then mkResponse (rs_header rs) (rs_status rs) (rs_body rs ++ [c])
                             (rs_hijacked rs) (rs_closed rs)
             else rs
         | None => rs
         end) s1.

(** [func (rw *responseWriter) WriteHeader(code int)] and the writer of
    net/http. *)
Fixpoint WriteHeader (w : ResponseWriter) (code : Z) (s : World) : World :=
  match w with
  | connWriter _ => conn_WriteHeader code s
  | responseWriter i inner =>
      WriteHeader inner code (with_wrappers (fun ws => <[i := code]> ws) s)
  end.

(** [Write]: [*responseWriter] does not define it, the call goes to the
    embedded writer. *)
Fixpoint Write (w : ResponseWriter) (c : Chunk) (s : World) : World :=
  match w with
  | connWriter _ => conn_Write c s
  | responseWriter _ inner => Write inner c s
  end.

(** [newResponseWriter]: a new object with [statusCode = http.StatusOK]. *)
Definition newResponseWriter (w : ResponseWriter) (s : World) : ResponseWriter * World :=
  (responseWriter (List.length (wrappers s)) w,
   with_wrappers (fun ws => ws ++ [200]) s).

(** [rw.statusCode]. *)
Definition statusCode (w : ResponseWriter) (s : World) : Z :=
  match w with
  | responseWriter i _ => default 0 (wrappers s !! i)
  | connWriter _ => 0
  end.

(** [hj, ok := w.(http.Hijacker)] followed by [hj.Hijack()] with
    [err == nil]: the method set of [*responseWriter] is [Header], [Write],
    [WriteHeader] (those of the embedded interface), so the assertion
    fails on it. [Some] is the world with the connection taken over. *)
Definition try_Hijack (w : ResponseWriter) (s : World) : option World :=
  match w with
  | connWriter HijackSucceeds =>
      if rs_hijacked (response s) then None
      else Some (with_response (fun rs =>
             mkResponse (rs_header rs) (rs_status rs) (rs_body rs) true (rs_closed rs)) s)
  | connWriter _ => None
  | responseWriter _ _ => None
  end.

(** [conn.Close()] on the connection returned by [Hijack]. *)
Definition conn_Close (s : World) : World :=
  with_response (fun rs =>
    mkResponse (rs_header rs) (rs_status rs) (rs_body rs) (rs_hijacked rs) true) s.

(** [http.Handler]. *)
Definition Handler : Type := ResponseWriter → Request → World → World.

(** ** Configuration (config file) *)

Record Config := mkConfig {
  BucketName1 : string;
  ServiceAccountPath1 : string;
  BucketName2 : string;
  ServiceAccountPath2 : string;
  Port : string;
  MaxFileSize : Z;
  APIKey1 : string;
  APIKey2 : string;
  AllowedIPs : list string;
  AllowedOrigins : list string
}.

(** ** Middleware (middleware and metrics files) *)

Section Middleware.
Context `{GoLib}.

(** The block that both denials of [AuthMiddleware] run: hijack and close
    when the writer allows it, otherwise [w.WriteHeader(http.StatusNotFound)]. *)
Definition stealth_or_404 (w : ResponseWriter) (s : World) : World :=
  match try_Hijack w s with
  | Some s' => conn_Close s'
  | None => WriteHeader w 404 s
  end.

(** [AuthMiddleware(apiKey, allowedIPs)(next)]. *)
Definition AuthMiddleware (apiKey : string) (allowedIPs : list string)
    (next : Handler) : Handler :=
  fun w r s =>
    let providedKey := Get (ReqHeader r) "X-API-Key" in
    if String.eqb providedKey EmptyString || negb (String.eqb providedKey apiKey)
    then stealth_or_404 w s
    else if (0 <? List.length allowedIPs)%nat then
      let clientIP := getClientIP r in
      if negb (isIPAllowed clientIP allowedIPs) then stealth_or_404 w s
      else next w r s
    else next w r s.

(** The headers [CORSMiddleware] sets before it looks at the method. *)
Definition cors_headers (allowedOrigins : list string) (r : Request) (s : World) : World :=
  let origin := Get (ReqHeader r) "Origin" in
  let s1 := if isOriginAllowed origin allowedOrigins
            then Header_Set "Access-Control-Allow-Origin" origin s
            else s in
  let s2 := Header_Set "Access-Control-Allow-Methods" "POST, GET, OPTIONS" s1 in
  let s3 := Header_Set "Access-Control-Allow-Headers" "Content-Type, X-API-Key" s2 in
  Header_Set "Access-Control-Max-Age" "3600" s3.

(** [CORSMiddleware(allowedOrigins)(next)]. *)
Definition CORSMiddleware (allowedOrigins : list string) (next : Handler) : Handler :=
  fun w r s =>
    let s' := cors_headers allowedOrigins r s in
    if String.eqb (Method r) "OPTIONS" then WriteHeader w 204 s'
    else next w r s'.


(** [MetricsMiddleware(next)]: the counter is incremented after [next]
    returns, the deferred [timer.ObserveDuration()] runs last. *)
Definition MetricsMiddleware (next : Handler) : Handler :=
  fun w r s =>
    if String.eqb (URL_Path r) "/metrics" then next w r s
    else
      let hostname := Host r in
      let clientIP := getClientIP r in
      let '(wrapped, s1) := newResponseWriter w s in
      let s2 := next wrapped r s1 in
      let s3 := with_metrics (fun m =>
                  mkMetrics
                    (Inc [Method r; URL_Path r; pretty (statusCode wrapped s2);
                          hostname; clientIP] (httpRequestsTotal m))
                    (httpRequestDuration m) (signedURLCreatedTotal m)) s2 in
      with_metrics (fun m =>
        mkMetrics (httpRequestsTotal m)
                  (Inc [Method r; URL_Path r] (httpRequestDuration m))
                  (signedURLCreatedTotal m)) s3.

(** [IncrementSignedURLCounter]. *)
Definition IncrementSignedURLCounter (hostname clientIP : string) (s : World) : World :=
  with_metrics (fun m =>
    mkMetrics (httpRequestsTotal m) (httpRequestDuration m)
              (Inc [hostname; clientIP] (signedURLCreatedTotal m))) s.

End Middleware.

(** ** Handlers (handlers.go) *)

Section Handlers.
Context `{GoLib} `{Storage}.

Definition validExtensions : list string :=
  [".jpg"; ".jpeg"; ".png"; ".gif"; ".webp"; ".bmp"; ".svg"].

Fixpoint isValidImageType_loop (filename : string) (exts : list string) : bool :=
  match exts with
  | [] => false
  | ext :: rest =>
      if HasSuffix filename ext then true else isValidImageType_loop filename rest
  end.

(** [isValidImageType]. *)
Definition isValidImageType (filename : string) : bool :=
  isValidImageType_loop (ToLower filename) validExtensions.

(** [w.WriteHeader(code)] followed by
    [json.NewEncoder(w).Encode(UploadResponse{Success: false, Error: msg})]. *)
Definition fail_with (w : ResponseWriter) (code : Z) (msg : string) (s : World) : World :=
  Write w (JsonUpload (mkUploadResponse false EmptyString EmptyString msg))
        (WriteHeader w code s).

(** [w.WriteHeader(http.StatusOK)] followed by the success response. *)
Definition succeed_with (w : ResponseWriter) (url msg : string) (s : World) : World :=
  Write w (JsonUpload (mkUploadResponse true url msg EmptyString))
        (WriteHeader w 200 s).

(** [HandleHealth]. *)
Definition HandleHealth : Handler :=
  fun w r s =>
    let s := enter H_Health s in
    let s := Header_Set "Content-Type" "application/json" s in
    Write w (JsonHealth (mkHealthResponse "healthy" "GCS Image Upload Service is running")) s.

(** [r.FormFile(key)] after a successful [ParseMultipartForm]: the first
    file of the field. *)
Fixpoint FormFile (files : list (string * FileHeader)) (key : string) : option FileHeader :=
  match files with
  | [] => None
  | (k, h) :: rest => if String.eqb k key then Some h else FormFile rest key
  end.

(** [HandleUpload(gcsClient, config)]. *)
Definition HandleUpload (gcsClient : GCSClient) (config : Config) : Handler :=
  fun w r s =>
    let s := enter (H_Upload gcsClient) s in
    let s := Header_Set "Content-Type" "application/json" s in
    if negb (String.eqb (Method r) "POST") then
      fail_with w 405 "Method not allowed. Use POST." s
    else
    match ParseMultipartForm r (MaxFileSize config) with
    | inl err => fail_with w 400 ("Failed to parse form: " +:+ err) s
    | inr files =>
    match FormFile files "image" with
    | None =>
        fail_with w 400 "No image file provided. Use 'image' as the form field name." s
    | Some header =>
    if MaxFileSize config <? Size header then
      fail_with w 400
        ("File too large. Max size: "
           +:+ pretty (Z.quot (MaxFileSize config) (1024 * 1024)) +:+ " MB") s
    else if negb (isValidImageType (Filename header)) then
      fail_with w 400 "Invalid file type. Allowed: jpg, jpeg, png, gif, webp, bmp, svg" s
    else
    let result := UploadImage gcsClient header (storage_calls s) in
    let s := with_storage_call (CallUploadImage gcsClient header) s in
    match result with
    | inl err => fail_with w 500 ("Failed to upload image: " +:+ err) s
    | inr url => succeed_with w url "Image uploaded successfully" s
    end
    end
    end.

(** [HandleGenerateSignedUrl(gcsClient)]. *)
Definition HandleGenerateSignedUrl (gcsClient : GCSClient) : Handler :=
  fun w r s =>
    let s := enter (H_SignedUrl gcsClient) s in
    let s := Header_Set "Content-Type" "application/json" s in
    if negb (String.eqb (Method r) "POST") then
      fail_with w 405 "Method not allowed. Use POST." s
    else
    match Body_Decode r with
    | inl _ => fail_with w 400 "Invalid request body" s
    | inr req =>
    if String.eqb (sur_Filename req) EmptyString
       || String.eqb (sur_ContentType req) EmptyString then
      fail_with w 400 "Filename and ContentType are required" s
    else if negb (isValidImageType (sur_Filename req)) then
      fail_with w 400 "Invalid file type" s
    else
    let result := GenerateV4PutObjectSignedURL gcsClient (sur_Filename req)
                    (sur_ContentType req) (storage_calls s) in
    let s := with_storage_call
               (CallSignedURL gcsClient (sur_Filename req) (sur_ContentType req)) s in
    match result with
    | inl err => fail_with w 500 ("Failed to generate signed URL: " +:+ err) s
    | inr url =>
        let hostname := Host r in
        let clientIP := getClientIP r in
        let s := IncrementSignedURLCounter hostname clientIP s in
        succeed_with w url "Signed URL generated successfully" s
    end
    end.

End Handlers.

(** ** [http.ServeMux] and the handlers of the libraries *)

Module GoMux.

(** The element loop of [path.Clean] on a rooted path; [stack] holds the
    kept elements, last one first. *)
Fixpoint clean_elems (stack elems : list string) : list string :=
  match elems with
  | [] => rev stack
  | e :: rest =>
      if String.eqb e EmptyString || String.eqb e "." then clean_elems stack rest
      else if String.eqb e ".." then clean_elems (tail stack) rest
      else clean_elems (e :: stack) rest
  end.

Definition join_rooted (elems : list string) : string :=
  match elems with
  | [] => "/"
  | _ => fold_right (fun e acc => "/" +:+ e +:+ acc) EmptyString elems
  end.

(** [cleanPath] of net/http: the canonical path, which keeps a trailing
    slash. *)
Definition cleanPath (p : string) : string :=
  match p with
  | EmptyString => "/"
  | String c _ =>
      let p := if Ascii.eqb c "/" then p else "/" +:+ p in
      let np := join_rooted (clean_elems [] (Split p "/")) in
      if HasSuffix p "/" && negb (String.eqb np "/") then np +:+ "/" else np
  end.

Fixpoint lookup_pattern (routes : list (string * Handler)) (path : string) : option Handler :=
  match routes with
  | [] => None
  | (pattern, h) :: rest =>
      if String.eqb pattern path then Some h else lookup_pattern rest path
  end.

(** [http.NotFound]. *)
Definition NotFound : Handler :=
  fun w r s =>
    let s := Header_Set "Content-Type" "text/plain; charset=utf-8" s in
    let s := Header_Set "X-Content-Type-Options" "nosniff" s in
    Write w (Text "404 page not found") (WriteHeader w 404 s).

(** [http.RedirectHandler(url, http.StatusMovedPermanently)]; the note in
    the body is only written for GET. *)
Definition Redirect (url : string) : Handler :=
  fun w r s =>
    let s := Header_Set "Location" url s in
    let s := WriteHeader w 301 s in
    if String.eqb (Method r) "GET" then Write w (Text "Moved Permanently") s else s.

(** [ServeMux.ServeHTTP] for patterns that are plain paths without a
    trailing slash, as all patterns of main.go are: such a pattern matches
    exactly its path; a path that is not canonical is redirected (except
    for CONNECT); anything else is not found. *)
Definition ServeMux (routes : list (string * Handler)) : Handler :=
  fun w r s =>
    let path := URL_Path r in
    if negb (String.eqb (Method r) "CONNECT")
       && negb (String.eqb (cleanPath path) path)
    then Redirect (cleanPath path) w r s
    else match lookup_pattern routes path with
         | Some h => h w r s
         | None => NotFound w r s
         end.

(** [promhttp.Handler()]: writes the exposition of the registry. *)
Definition promhttp_Handler : Handler :=
  fun w r s =>
    let s := enter H_Metrics s in
    let s := Header_Set "Content-Type" "text/plain; version=0.0.4; charset=utf-8" s in
    Write w (Exposition (metrics s)) s.

End GoMux.

Import GoMux.

(** ** Route registration and the composed handler (main.go) *)

Section Main.
Context `{GoLib} `{Storage}.

(** The two storage clients of [main]. *)
Definition darlingimagesClientProd (config : Config) : GCSClient :=
  mkGCSClient (BucketName1 config).
Definition darlingimagesClientDev (config : Config) : GCSClient :=
  mkGCSClient (BucketName2 config).

(** The patterns registered on [authenticatedMux], in order. *)
Definition authenticatedMux (config : Config) : list (string * Handler) :=
  [("/health", HandleHealth); ("/metrics", promhttp_Handler)]
  ++ (if negb (String.eqb (APIKey1 config) EmptyString) then
        [("/upload",
          AuthMiddleware (APIKey1 config) (AllowedIPs config)
            (HandleUpload (darlingimagesClientProd config) config));
         ("/signedurl",
          AuthMiddleware (APIKey1 config) (AllowedIPs config)
            (HandleGenerateSignedUrl (darlingimagesClientProd config)));
         ("/upload-dev",
          AuthMiddleware (APIKey1 config) (AllowedIPs config)
            (HandleUpload (darlingimagesClientDev config) config));
         ("/signedurl-dev",
          AuthMiddleware (APIKey1 config) (AllowedIPs config)
            (HandleGenerateSignedUrl (darlingimagesClientDev config)))]
      else
        [("/upload", HandleUpload (darlingimagesClientProd config) config)]).

(** [handler] of [main]:
    [MetricsMiddleware(CORSMiddleware(config.AllowedOrigins)(authenticatedMux))]. *)
Definition handler (config : Config) : Handler :=
  MetricsMiddleware (CORSMiddleware (AllowedOrigins config) (ServeMux (authenticatedMux config))).

(** One exchange on a connection with capability [cap]. *)
Definition serve (config : Config) (cap : HijackCap) (r : Request) (s : World) : World :=
  handler config (connWriter cap) r (new_exchange s).


End Main.

(** ** A reference instance of the library operations

    The ASCII and IPv4 fragment of the Go functions: [TrimSpace] and
    [ToLower] act on ASCII bytes, [ParseIP] and [ParseCIDR] accept dotted
    quads (Go also accepts IPv6 text, for which this instance answers
    [None]). It is used for the worked examples. *)

Module RefLib.

Definition is_space (c : ascii) : bool :=
  existsb (Nat.eqb (nat_of_ascii c)) [9; 10; 11; 12; 13; 32]%nat.

Fixpoint trim_left (s : string) : string :=
  match s with
  | EmptyString => EmptyString
  | String c s' => if is_space c then trim_left s' else s
  end.

Fixpoint trim_right (s : string) : string :=
  match s with
  | EmptyString => EmptyString
  | String c s' =>
      let t := trim_right s' in
      if is_space c && String.eqb t EmptyString then EmptyString else String c t
  end.

Definition ascii_TrimSpace (s : string) : string := trim_right (trim_left s).

Fixpoint ascii_ToLower (s : string) : string :=
  match s with
  | EmptyString => EmptyString
  | String c s' => String (to_lower c) (ascii_ToLower s')
  end.

(** The value of a string of decimal digits. *)
Fixpoint digits_value (acc : Z) (s : string) : option Z :=
  match s with
  | EmptyString => Some acc
  | String c s' =>
      if is_digit c
      then digits_value (acc * 10 + (Z.of_nat (nat_of_ascii c) - 48)) s'
      else None
  end.

(** One field of a dotted quad: 1 to 3 digits, no leading zero, at most 255. *)
Definition parse_octet (s : string) : option Z :=
  match s with
  | EmptyString => None
  | String c rest =>
      if (3 <? String.length s)%nat then None
      else if Ascii.eqb c "0" && negb (String.eqb rest EmptyString) then None
      else match digits_value 0 s with
           | Some v => if v <=? 255 then Some v else None
           | None => None
           end
  end.

(** An IPv4 address as its 32-bit value. *)
Definition ParseIPv4 (s : string) : option Z :=
  match Split s "." with
  | [a; b; c; d] =>
      match parse_octet a, parse_octet b, parse_octet c, parse_octet d with
      | Some a, Some b, Some c, Some d => Some (((a * 256 + b) * 256 + c) * 256 + d)
      | _, _, _, _ => None
      end
  | _ => None
  end.

(** The mask of a prefix length: the [n] leading bits of 32. *)
Definition CIDRMask (n : Z) : Z := 2 ^ 32 - 2 ^ (32 - n).

(** An IPv4 network: the masked address and the prefix length. *)
Definition ParseCIDRv4 (s : string) : option (Z * Z) :=
  if negb (Contains s "/") then None
  else
    let addr := before_first "/" s in
    let mask := drop_bytes (S (String.length addr)) s in
    match ParseIPv4 addr, mask, digits_value 0 mask with
    | Some ip, String _ _, Some n =>
        if n <=? 32 then Some (Z.land ip (CIDRMask n), n) else None
    | _, _, _ => None
    end.

Definition v4_Contains (net : Z * Z) (ip : Z) : bool :=
  Z.land (fst net) (CIDRMask (snd net)) =? Z.land ip (CIDRMask (snd net)).

Fixpoint index_byte (c : ascii) (s : string) : option nat :=
  match s with
  | EmptyString => None
  | String c' s' => if Ascii.eqb c' c then Some O else S <$> index_byte c s'
  end.

Fixpoint last_index_byte (c : ascii) (s : string) : option nat :=
  match s with
  | EmptyString => None
  | String c' s' =>
      match last_index_byte c s' with
      | Some i => Some (S i)
      | None => if Ascii.eqb c' c then Some O else None
      end
  end.

Definition has_byte (c : ascii) (s : string) : bool :=
  bool_decide (is_Some (index_byte c s)).

(** [net.SplitHostPort]: the port follows the last colon; a host with a
    colon must be in square brackets. *)
Definition ref_SplitHostPort (hostport : string) : option (string * string) :=
  match last_index_byte ":" hostport with
  | None => None
  | Some i =>
      let port := drop_bytes (S i) hostport in
      match hostport with
      | String "[" _ =>
          match index_byte "]" hostport with
          | None => None
          | Some e =>
              if negb (S e =? i)%nat then None
              else if has_byte "[" (drop_bytes 1 hostport) then None
              else if has_byte "]" (drop_bytes (S e) hostport) then None
              else Some (String.substring 1 (e - 1) hostport, port)
          end
      | _ =>
          let host := String.substring 0 i hostport in
          if has_byte ":" host then None
          else if has_byte "[" hostport then None
          else if has_byte "]" hostport then None
          else Some (host, port)
      end
  end.

#[export] Instance ref_GoLib : GoLib := {|
  TrimSpace := ascii_TrimSpace;
  ToLower := ascii_ToLower;
  IP := Z;
  IPNet := Z * Z;
  ParseIP := ParseIPv4;
  ParseCIDR := ParseCIDRv4;
  IPNet_Contains := v4_Contains;
  SplitHostPort := ref_SplitHostPort
|}.

(** A storage collaborator that accepts every call. *)
#[export] Instance ref_Storage : Storage := {|
  UploadImage c h _ :=
    inr ("https://storage.googleapis.com/" +:+ bucketName c +:+ "/" +:+ Filename h);
  GenerateV4PutObjectSignedURL c object _ _ :=
    inr ("https://storage.googleapis.com/" +:+ bucketName c +:+ "/" +:+ object +:+ "?X-Goog-Signature=0")
|}.

(** A storage collaborator that fails every call. *)
Definition failing_Storage : Storage := {|
  UploadImage _ _ _ := inl "storage unavailable";
  GenerateV4PutObjectSignedURL _ _ _ _ := inl "storage unavailable"
|}.

End RefLib.

Import RefLib.

(** ** The properties, in the words of the specification *)

Section SpecWords.
Context `{GoLib}.

(** First non-empty wins: each candidate is a header value with the
    identity it yields. *)
Fixpoint first_nonempty (candidates : list (string * string)) (fallback : string) : string :=
  match candidates with
  | [] => fallback
  | (value, identity) :: rest =>
      if String.eqb value EmptyString then first_nonempty rest fallback else identity
  end.

(** The transport peer address with the port suffix stripped, or the raw
    address when stripping fails. *)
Definition peer_without_port (remoteAddr : string) : string :=
  match SplitHostPort remoteAddr with
  | Some (host, _) => host
  | None => remoteAddr
  end.

(** The resolved client identity as the specification orders it. *)
Definition resolved_identity (r : Request) : string :=
  let cf := Get (ReqHeader r) "CF-Connecting-IP" in
  let real := Get (ReqHeader r) "X-Real-IP" in
  let forwarded := Get (ReqHeader r) "X-Forwarded-For" in
  first_nonempty
    [(cf, cf); (real, real); (forwarded, TrimSpace (before_first "," forwarded))]
    (peer_without_port (RemoteAddr r)).

(** An allowlist entry matches a client: by CIDR membership when it
    contains a slash (an entry that is no CIDR block matches nothing), by
    string equality otherwise. *)
Definition entry_matches (clientIP : string) (parsed : IP) (entry : string) : Prop :=
  if Contains entry "/"
  then ∃ block, ParseCIDR entry = Some block ∧ IPNet_Contains block parsed = true
  else clientIP = entry.

End SpecWords.

(** A request carrying the two headers of the identity example. *)
Definition two_header_request (method path host remote : string) : Request :=
  mkRequest method path host remote
    (Set_ (Set_ ∅ "X-Forwarded-For" "2.2.2.2") "CF-Connecting-IP" "1.1.1.1")
    (fun _ => inl "no form") (inl "no body").

Section GateWords.
Context `{GoLib}.

(** The API-key gate denies: the header is missing, empty, or differs
    from the configured secret. *)
Definition key_rejected (apiKey : string) (r : Request) : Prop :=
  ReqHeader r !! CanonicalMIMEHeaderKey "X-API-Key" = None
  ∨ Get (ReqHeader r) "X-API-Key" = EmptyString
  ∨ Get (ReqHeader r) "X-API-Key" ≠ apiKey.

(** The IP-allowlist gate denies: it is installed (the allowlist is not
    empty) and the resolved client is not allowed. *)
Definition ip_rejected (allowedIPs : list string) (r : Request) : Prop :=
  allowedIPs ≠ [] ∧ isIPAllowed (getClientIP r) allowedIPs = false.

Definition gate_denies (apiKey : string) (allowedIPs : list string) (r : Request) : Prop :=
  key_rejected apiKey r ∨ ip_rejected allowedIPs r.

End GateWords.

(** The writer lets the gate take over the connection. *)
Definition hijackable (w : ResponseWriter) : bool :=
  match w with
  | connWriter HijackSucceeds => true
  | _ => false
  end.

(** No status line, header block or body was written so far. *)
Definition untouched (rs : Response) : Prop :=
  rs_status rs = None ∧ rs_body rs = [] ∧ rs_hijacked rs = false.

(** The connection was closed and nothing was written on it. *)
Definition silently_closed (rs : Response) : Prop :=
  rs_status rs = None ∧ rs_body rs = [] ∧ rs_closed rs = true.

(** The status sent, if any. *)
Definition sent_status (rs : Response) : option Z := fst <$> rs_status rs.


(** A not-found status and an empty body. *)
Definition bare_not_found (rs : Response) : Prop :=
  sent_status rs = Some 404 ∧ rs_body rs = [].

(** The routes the specification calls protected. *)
Definition protected_paths : list string :=
  ["/upload"; "/upload-dev"; "/signedurl"; "/signedurl-dev"].

(** The allowed-origins policy as the specification words it: the
    wildcard policy (the single entry [*]), or string equality with some
    configured origin. *)
Definition origin_matches_policy (origin : string) (allowedOrigins : list string) : Prop :=
  allowedOrigins = ["*"] ∨ origin ∈ allowedOrigins.

(** The policy of the code: an empty list allows every origin as well. *)
Definition origin_matches_or_none_configured (origin : string)
    (allowedOrigins : list string) : Prop :=
  allowedOrigins = [] ∨ allowedOrigins = ["*"] ∨ origin ∈ allowedOrigins.


(** A sequence of [WriteHeader] calls on a writer. *)
Definition write_headers (w : ResponseWriter) (codes : list Z) (s : World) : World :=
  fold_left (fun s code => WriteHeader w code s) codes s.

(** The status the wrapper reports after a sequence of [WriteHeader]
    calls made on it since [newResponseWriter]. *)
Definition reported_status (inner : ResponseWriter) (codes : list Z) (s : World) : Z :=
  let '(wrapped, s1) := newResponseWriter inner s in
  statusCode wrapped (write_headers wrapped codes s1).

(** The extensions the handlers accept. *)
Definition image_extensions : list string :=
  [".jpg"; ".jpeg"; ".png"; ".gif"; ".webp"; ".bmp"; ".svg"].

(** The lowercased file name ends in one of the accepted extensions. *)
Definition has_image_extension `{GoLib} (filename : string) : Prop :=
  ∃ ext, ext ∈ image_extensions ∧ HasSuffix (ToLower filename) ext = true.

(** The body is one JSON object with [success = false] and an error
    message that is not empty. *)
Definition json_failure (body : list Chunk) : Prop :=
  ∃ v, body = [JsonUpload v] ∧ Success v = false ∧ Error v ≠ EmptyString.

Section MetricsWords.
Context `{GoLib} `{Storage}.



End MetricsWords.

(** ** Invariants of the pipeline *)




(** ** Worked inputs *)

Definition demo_config : Config :=
  mkConfig "images-prod" "./service-account-key.json" "images-dev" EmptyString
           "8080" (10 * 1024 * 1024) "s3cret" EmptyString
           ["203.0.113.0/24"] ["https://example.com"].


Definition empty_world : World :=
  mkWorld empty_response [] (mkMetrics ∅ ∅ ∅) [] [].

Definition png_upload : Z → string + list (string * FileHeader) :=
  fun _ => inr [("image", mkFileHeader "cat.PNG" 2048 "png bytes")].

Definition exe_upload : Z → string + list (string * FileHeader) :=
  fun _ => inr [("image", mkFileHeader "setup.exe" 2048 "exe bytes")].

(** POST /upload with the right key from an allowed address. *)
Definition good_upload : Request :=
  mkRequest "POST" "/upload" "gcb.example" "203.0.113.5:51000"
            (Set_ ∅ "X-API-Key" "s3cret") png_upload (inl "not JSON").


(** The right key from an address outside the allowlist. *)
Definition outsider_upload : Request :=
  mkRequest "POST" "/upload" "gcb.example" "198.51.100.7:51000"
            (Set_ ∅ "X-API-Key" "s3cret") png_upload (inl "not JSON").

(** A preflight request. *)
Definition preflight : Request :=
  mkRequest "OPTIONS" "/upload" "gcb.example" "203.0.113.5:51000"
            (Set_ ∅ "Origin" "https://example.com") (fun _ => inl "no form") (inl "no body").



(** POST /signedurl asking for an executable. *)
Definition signedurl_exe : Request :=
  mkRequest "POST" "/signedurl" "gcb.example" "203.0.113.5:51000"
            ∅ (fun _ => inl "no form") (inr (mkSignedUrlRequest "setup.exe" "image/png")).

(** POST /upload of an executable. *)
Definition exe_post : Request :=
  mkRequest "POST" "/upload" "gcb.example" "203.0.113.5:51000"
            ∅ exe_upload (inl "not JSON").

(** ** Configuration loading (config file) *)

Module GoStrconv.

(** The value of an [int64] computation: two's complement wrap-around. *)
Definition wrap_int64 (z : Z) : Z := (z + 2 ^ 63) mod 2 ^ 64 - 2 ^ 63.

Inductive UintResult := UintOk (n : Z) | UintSyntax | UintRange.

(** The digit loop of [strconv.ParseUint(s, 10, 64)]: a byte that is no
    digit is a syntax error; the value leaving 64 bits is a range error,
    found before the bytes that follow are looked at. *)
Fixpoint ParseUint_loop (n : Z) (s : string) : UintResult :=
  match s with
  | EmptyString => UintOk n
  | String c s' =>
      if negb (is_digit c) then UintSyntax
      else if 1844674407370955162 <=? n then UintRange
      else
        let n1 := n * 10 + (Z.of_nat (nat_of_ascii c) - 48) in
        if 18446744073709551615 <? n1 then UintRange else ParseUint_loop n1 s'
  end.

(** The first result of [strconv.Atoi] on a 64-bit platform: 0 on a syntax
    error, the nearest bound on a range error. *)
Definition Atoi (s : string) : Z :=
  match s with
  | EmptyString => 0
  | String c rest =>
      let neg := Ascii.eqb c "-" in
      let digits := if Ascii.eqb c "+" || neg then rest else s in
      match digits with
      | EmptyString => 0
      | String _ _ =>
          match ParseUint_loop 0 digits with
          | UintSyntax => 0
          | UintRange => if neg then - 2 ^ 63 else 2 ^ 63 - 1
          | UintOk un =>
              if neg then (if 2 ^ 63 <? un then - 2 ^ 63 else - un)
              else (if 2 ^ 63 <=? un then 2 ^ 63 - 1 else un)
          end
      end
  end.

End GoStrconv.

Import GoStrconv.

(** The process environment, after [godotenv.Load]. *)
Abbreviation Env := (gmap string string).

(** [os.Getenv]: the empty string for a variable that is not set. *)
Definition Getenv (env : Env) (key : string) : string :=
  default EmptyString (env !! key).

(** [getEnv]. *)
Definition getEnv (env : Env) (key defaultValue : string) : string :=
  let value := Getenv env key in
  if String.eqb value EmptyString then defaultValue else value.

(** [LoadConfig]. *)
Definition LoadConfig `{GoLib} (env : Env) : Config :=
  let maxFileSizeInt := Atoi (getEnv env "MAX_FILE_SIZE_MB" "10") in
  let maxFileSize := maxFileSizeInt in
  let allowedIPsStr := getEnv env "ALLOWED_IPS" EmptyString in
  let allowedIPs :=
    if negb (String.eqb allowedIPsStr EmptyString)
    then map TrimSpace (Split allowedIPsStr ",")
    else [] in
  let allowedOriginsStr := getEnv env "ALLOWED_ORIGINS" "*" in
  let allowedOrigins := map TrimSpace (Split allowedOriginsStr ",") in
  mkConfig
    (getEnv env "GCS_BUCKET_NAME_1" EmptyString)
    (getEnv env "GCS_AUTH_1" "./service-account-key.json")
    (getEnv env "GCS_BUCKET_NAME_2" EmptyString)
    (getEnv env "GCS_AUTH_2" EmptyString)
    (getEnv env "PORT" "8080")
    (wrap_int64 (wrap_int64 (maxFileSize * 1024) * 1024))
    (getEnv env "GCS_API_KEY_1" EmptyString)
    (getEnv env "GCS_API_KEY_2" EmptyString)
    allowedIPs
    allowedOrigins.

(** ** Object names and content types (storage file) *)

Module GoFilepath.

(** The loop of [filepath.Ext] (separator [/]) with [i = n - 1]. *)
Fixpoint Ext_from (path : string) (n : nat) : string :=
  match n with
  | O => EmptyString
  | S i =>
      match String.get i path with
      | Some c =>
          if Ascii.eqb c "/" then EmptyString
          else if Ascii.eqb c "." then drop_bytes i path
          else Ext_from path i
      | None => EmptyString
      end
  end.

(** [filepath.Ext]. *)
Definition Ext (path : string) : string := Ext_from path (String.length path).

(** The first loop of [filepath.Base]: [path[:n]] without its trailing
    slashes. *)
Fixpoint strip_trailing (path : string) (n : nat) : string :=
  match n with
  | O => EmptyString
  | S i =>
      match String.get i path with
      | Some c =>
          if Ascii.eqb c "/" then strip_trailing path i
          else String.substring 0 n path
      | None => EmptyString
      end
  end.

(** The second loop of [filepath.Base] with [i = n - 1]: what follows the
    last slash. *)
Fixpoint last_element (path : string) (n : nat) : string :=
  match n with
  | O => path
  | S i =>
      match String.get i path with
      | Some c =>
          if Ascii.eqb c "/" then drop_bytes n path else last_element path i
      | None => path
      end
  end.

(** [filepath.Base]. *)
Definition Base (path : string) : string :=
  match path with
  | EmptyString => "."
  | String _ _ =>
      let path := strip_trailing path (String.length path) in
      let path := last_element path (String.length path) in
      match path with
      | EmptyString => "/"
      | String _ _ => path
      end
  end.

End GoFilepath.

Import GoFilepath.

(** [sanitizeFilename]. *)
Definition sanitizeFilename (filename : string) : string := Base filename.

(** The table of [getContentType]. *)
Definition contentTypes : gmap string string :=
  list_to_map
    [(".jpg", "image/jpeg"); (".jpeg", "image/jpeg"); (".png", "image/png");
     (".gif", "image/gif"); (".webp", "image/webp"); (".bmp", "image/bmp");
     (".svg", "image/svg+xml")].

(** [getContentType]. *)
Definition getContentType (ext : string) : string :=
  match contentTypes !! ext with
  | Some ct => ct
  | None => "application/octet-stream"
  end.

(** [s[:n]] with Go's bounds check: [None] is the run-time panic. *)
Definition slice_to (s : string) (n : Z) : option string :=
  if (0 <=? n) && (n <=? Z.of_nat (String.length s))
  then Some (String.substring 0 (Z.to_nat n) s)
  else None.

(** What [UploadImage] computes before it copies the file: the object name
    (from [time.Now().Unix()] and the file name) and the content type of
    the writer. [None] is a panic of the slice expression. *)
Definition upload_target (now : Z) (header : FileHeader) : option (string * string) :=
  let ext := Ext (Filename header) in
  stem ← slice_to (Filename header)
           (Z.of_nat (String.length (Filename header)) - Z.of_nat (String.length ext));
  Some (pretty now +:+ "-" +:+ sanitizeFilename stem +:+ ext, getContentType ext).

(** ** Further notions used in the properties *)

(** The request with one header set. *)
Definition with_header (r : Request) (key value : string) : Request :=
  mkRequest (Method r) (URL_Path r) (Host r) (RemoteAddr r)
            (Set_ (ReqHeader r) key value) (ParseMultipartForm r) (Body_Decode r).


(** The byte occurs in the string. *)
Fixpoint occurs (c : ascii) (s : string) : bool :=
  match s with
  | EmptyString => false
  | String c' s' => Ascii.eqb c' c || occurs c s'
  end.

(** The number of occurrences of a byte. *)
Fixpoint count_byte (c : ascii) (s : string) : nat :=
  match s with
  | EmptyString => O
  | String c' s' => (if Ascii.eqb c' c then 1 else 0) + count_byte c s'
  end.

(** A storage call that the route of a path may make: uploads on the two
    upload routes, signed URLs on the two signed-URL routes, each with the
    client of its bucket. *)
Definition route_call (config : Config) (path : string) (call : StorageCall) : Prop :=
  match call with
  | CallUploadImage c _ =>
      (path = "/upload" ∧ c = mkGCSClient (BucketName1 config))
      ∨ (path = "/upload-dev" ∧ c = mkGCSClient (BucketName2 config))
  | CallSignedURL c _ _ =>
      (path = "/signedurl" ∧ c = mkGCSClient (BucketName1 config))
      ∨ (path = "/signedurl-dev" ∧ c = mkGCSClient (BucketName2 config))
  end.

(** Between [s] and [s'] at most one storage call was made, and it
    satisfies [P]. *)
Definition at_most_one_call (P : StorageCall → Prop) (s s' : World) : Prop :=
  storage_calls s' = storage_calls s
  ∨ ∃ call, P call ∧ storage_calls s' = storage_calls s ++ [call].

(** A handler that makes at most one storage call, satisfying [P]. *)
Definition calls_only (P : StorageCall → Prop) (h : Handler) : Prop :=
  ∀ w r s, at_most_one_call P s (h w r s).



(** ** Proofs *)

(** *** Strings *)

Arguments Set_ : simpl never.
Arguments Get : simpl never.
Arguments Inc : simpl never.

Lemma Split_first (s : string) (sep : ascii) :
  Split s sep !! 0%nat = Some (before_first sep s).
Proof.
  induction s as [|c s IH]; simpl; [reflexivity|].
  destruct (Ascii.eqb c sep); [reflexivity|].
  destruct (Split s sep) as [|piece rest]; simpl in *; [discriminate|].
  congruence.
Qed.

Lemma Split_nonempty (s : string) (sep : ascii) : Split s sep ≠ [].
Proof.
  intros E. pose proof (Split_first s sep) as F. rewrite E in F. discriminate.
Qed.

(** *** The library models on sample inputs *)

Example Split_keeps_empty_pieces :
  Split "a,b,,c" "," = ["a"; "b"; EmptyString; "c"] ∧ Split EmptyString "," = [EmptyString].
Proof. split; reflexivity. Qed.

Example HasSuffix_samples :
  HasSuffix "photo.jpeg" ".jpeg" = true ∧ HasSuffix "jpg" ".jpg" = false.
Proof. split; reflexivity. Qed.

Example CanonicalMIMEHeaderKey_samples :
  CanonicalMIMEHeaderKey "x-api-key" = "X-Api-Key"
  ∧ CanonicalMIMEHeaderKey "CF-Connecting-IP" = "Cf-Connecting-Ip"
  ∧ CanonicalMIMEHeaderKey "not a token" = "not a token".
Proof. repeat split. Qed.

Example cleanPath_samples :
  cleanPath "/upload" = "/upload"
  ∧ cleanPath "//upload" = "/upload"
  ∧ cleanPath "/upload/" = "/upload/"
  ∧ cleanPath "/a/../upload" = "/upload"
  ∧ cleanPath EmptyString = "/".
Proof. repeat split. Qed.

Example SplitHostPort_samples :
  ref_SplitHostPort "203.0.113.5:51000" = Some ("203.0.113.5", "51000")
  ∧ ref_SplitHostPort "[::1]:80" = Some ("::1", "80")
  ∧ ref_SplitHostPort "203.0.113.5" = None.
Proof. repeat split. Qed.

Example ParseIPv4_samples :
  ParseIPv4 "203.0.113.5" = Some 3405803781
  ∧ ParseIPv4 "203.0.113.05" = None
  ∧ ParseIPv4 "256.1.1.1" = None
  ∧ ParseCIDRv4 "203.0.113.77/24" = Some (3405803776, 24)
  ∧ ParseCIDRv4 "203.0.113.0/33" = None.
Proof. repeat split. Qed.

(** The first entry of X-Forwarded-For is used even when it trims to the
    empty string; the peer address is used only without the three headers,
    and unchanged when it has no port. *)
Example getClientIP_samples :
  getClientIP (mkRequest "GET" "/health" "gcb.example" "192.0.2.1:9"
                 (Set_ ∅ "X-Forwarded-For" " 198.51.100.7 , 10.0.0.1")
                 (fun _ => inl "no form") (inl "no body")) = "198.51.100.7"
  ∧ getClientIP (mkRequest "GET" "/health" "gcb.example" "192.0.2.1:9"
                   (Set_ ∅ "X-Forwarded-For" " , 10.0.0.1")
                   (fun _ => inl "no form") (inl "no body")) = EmptyString
  ∧ getClientIP (mkRequest "GET" "/health" "gcb.example" "192.0.2.1:9" ∅
                   (fun _ => inl "no form") (inl "no body")) = "192.0.2.1"
  ∧ getClientIP (mkRequest "GET" "/health" "gcb.example" "192.0.2.1" ∅
                   (fun _ => inl "no form") (inl "no body")) = "192.0.2.1".
Proof. repeat split. Qed.

(** *** Client identity *)

Section IdentityProofs.
Context `{GoLib}.

Lemma getClientIP_checked_total (r : Request) :
  getClientIP_checked r = Some (getClientIP r).
Proof.
  unfold getClientIP, getClientIP_checked, first_forwarded.
  rewrite Split_first.
  repeat (destruct (negb _); [reflexivity|]).
  destruct (SplitHostPort _) as [[? ?]|]; reflexivity.
Qed.

Lemma getClientIP_resolved (r : Request) : getClientIP r = resolved_identity r.
Proof.
  unfold getClientIP, getClientIP_checked, first_forwarded, resolved_identity,
    peer_without_port; simpl.
  rewrite Split_first.
  repeat (destruct (String.eqb _ EmptyString); simpl; [|reflexivity]).
  destruct (SplitHostPort _) as [[? ?]|]; reflexivity.
Qed.

(** *** The allowlist *)

Lemma isIPAllowed_loop_spec (clientIP : string) (parsed : IP) (allowedIPs : list string) :
  isIPAllowed_loop clientIP parsed allowedIPs = true
  ↔ ∃ entry, entry ∈ allowedIPs ∧ entry_matches clientIP parsed entry.
Proof.
  induction allowedIPs as [|a rest IH]; simpl.
  - split; [discriminate|]. intros (e & He & _). inversion He.
  - assert (Hentry : entry_allows clientIP parsed a = true ↔ entry_matches clientIP parsed a).
    { unfold entry_allows, entry_matches. destruct (Contains a "/").
      - destruct (ParseCIDR a) as [block|].
        + split; [eauto|]. intros (b & Hb & Hc). congruence.
        + split; [discriminate|]. intros (b & Hb & _). discriminate.
      - apply String.eqb_eq. }
    destruct (entry_allows clientIP parsed a) eqn:E.
    + split; [|reflexivity]. intros _. exists a. split; [left|]. by apply Hentry.
    + rewrite IH. split.
      * intros (e & He & Hm). exists e. split; [by right|done].
      * intros (e & He & Hm). apply elem_of_cons in He as [->|He].
        -- apply Hentry in Hm. discriminate.
        -- eauto.
Qed.

End IdentityProofs.

(** *** Writers *)

Lemma WriteHeader_frame (w : ResponseWriter) (code : Z) (s : World) :
  response (WriteHeader w code s) = response (conn_WriteHeader code s)
  ∧ metrics (WriteHeader w code s) = metrics s
  ∧ storage_calls (WriteHeader w code s) = storage_calls s
  ∧ invoked (WriteHeader w code s) = invoked s.
Proof.
  revert s. induction w as [cap|i inner IH]; intros s; simpl; [done|].
  destruct (IH (with_wrappers (λ ws, <[i:=code]> ws) s)) as (-> & -> & -> & ->).
  done.
Qed.

Lemma Write_frame (w : ResponseWriter) (c : Chunk) (s : World) :
  Write w c s = conn_Write c s.
Proof. induction w; simpl; done. Qed.

Lemma conn_Write_frame (c : Chunk) (s : World) :
  wrappers (conn_Write c s) = wrappers s
  ∧ metrics (conn_Write c s) = metrics s
  ∧ storage_calls (conn_Write c s) = storage_calls s
  ∧ invoked (conn_Write c s) = invoked s.
Proof.
  unfold conn_Write. destruct (rs_hijacked (response s)); [done|].
  destruct (rs_status (response s)); done.
Qed.

Lemma WriteHeader_untouched (w : ResponseWriter) (code : Z) (s : World) :
  untouched (response s) →
  rs_status (response (WriteHeader w code s)) = Some (code, rs_header (response s))
  ∧ rs_body (response (WriteHeader w code s)) = []
  ∧ rs_hijacked (response (WriteHeader w code s)) = false.
Proof.
  intros (Hs & Hb & Hh). destruct (WriteHeader_frame w code s) as (-> & _).
  simpl. rewrite Hh, Hs. simpl. done.
Qed.

Lemma try_Hijack_hijackable (w : ResponseWriter) (s : World) :
  rs_hijacked (response s) = false →
  try_Hijack w s =
    if hijackable w
    then Some (with_response (λ rs, mkResponse (rs_header rs) (rs_status rs)
                                      (rs_body rs) true (rs_closed rs)) s)
    else None.
Proof.
  intros Hh. destruct w as [[]|]; simpl; try done. by rewrite Hh.
Qed.

(** What the denial block does to an untouched response. *)
Lemma stealth_or_404_outcome `{GoLib} (w : ResponseWriter) (s : World) :
  untouched (response s) →
  (if hijackable w then silently_closed (response (stealth_or_404 w s))
   else bare_not_found (response (stealth_or_404 w s)))
  ∧ invoked (stealth_or_404 w s) = invoked s
  ∧ storage_calls (stealth_or_404 w s) = storage_calls s
  ∧ metrics (stealth_or_404 w s) = metrics s.
Proof.
  intros Hu. pose proof Hu as (Hs & Hb & Hh).
  unfold stealth_or_404. rewrite try_Hijack_hijackable by done.
  destruct (hijackable w).
  - simpl. done.
  - destruct (WriteHeader_untouched w 404 s Hu) as (E1 & E2 & _).
    destruct (WriteHeader_frame w 404 s) as (_ & -> & -> & ->).
    unfold bare_not_found, sent_status. rewrite E1, E2. done.
Qed.

(** *** The gate *)

Section GateProofs.
Context `{GoLib}.

Lemma auth_denied (apiKey : string) (allowedIPs : list string) (next : Handler)
    (w : ResponseWriter) (r : Request) (s : World) :
  gate_denies apiKey allowedIPs r →
  AuthMiddleware apiKey allowedIPs next w r s = stealth_or_404 w s.
Proof.
  intros Hd. unfold AuthMiddleware.
  destruct (String.eqb (Get (ReqHeader r) "X-API-Key") EmptyString) eqn:Ee;
    [reflexivity|].
  destruct (String.eqb (Get (ReqHeader r) "X-API-Key") apiKey) eqn:Ek; simpl;
    [|reflexivity].
  apply String.eqb_neq in Ee. apply String.eqb_eq in Ek.
  destruct Hd as [[Hm|[He|Hn]]|[Hne Hip]].
  - exfalso. apply Ee. unfold Get. by rewrite Hm.
  - done.
  - done.
  - rewrite Hip. destruct allowedIPs; [done|reflexivity].
Qed.

Lemma auth_forwarded (apiKey : string) (allowedIPs : list string) (next : Handler)
    (w : ResponseWriter) (r : Request) (s : World) :
  Get (ReqHeader r) "X-API-Key" = apiKey → apiKey ≠ EmptyString →
  (allowedIPs = [] ∨ isIPAllowed (getClientIP r) allowedIPs = true) →
  AuthMiddleware apiKey allowedIPs next w r s = next w r s.
Proof.
  intros Hk Hne Hip. unfold AuthMiddleware. rewrite Hk.
  apply String.eqb_neq in Hne. rewrite Hne, String.eqb_refl. simpl.
  destruct Hip as [ -> | -> ]; [reflexivity|].
  by destruct (0 <? _)%nat.
Qed.

Lemma untouched_cors_headers (allowedOrigins : list string) (r : Request) (s : World) :
  untouched (response s) → untouched (response (cors_headers allowedOrigins r s)).
Proof.
  unfold cors_headers, untouched. by destruct (isOriginAllowed _ _).
Qed.

Lemma cors_headers_frame (allowedOrigins : list string) (r : Request) (s : World) :
  wrappers (cors_headers allowedOrigins r s) = wrappers s
  ∧ metrics (cors_headers allowedOrigins r s) = metrics s
  ∧ storage_calls (cors_headers allowedOrigins r s) = storage_calls s
  ∧ invoked (cors_headers allowedOrigins r s) = invoked s.
Proof. unfold cors_headers. by destruct (isOriginAllowed _ _). Qed.

Lemma cleanPath_protected (p : string) : p ∈ protected_paths → cleanPath p = p.
Proof.
  unfold protected_paths. rewrite !elem_of_cons, elem_of_nil.
  intros [ -> | [ -> | [ -> | [ -> | [] ] ] ] ]; reflexivity.
Qed.

Lemma protected_not_metrics (p : string) :
  p ∈ protected_paths → String.eqb p "/metrics" = false.
Proof.
  unfold protected_paths. rewrite !elem_of_cons, elem_of_nil.
  intros [ -> | [ -> | [ -> | [ -> | [] ] ] ] ]; reflexivity.
Qed.

End GateProofs.

Section PipelineProofs.
Context `{GoLib} `{Storage}.

(** With a secret configured, the mux hands a protected path to the gate. *)
Lemma mux_protected (config : Config) (w : ResponseWriter) (r : Request) (s : World) :
  APIKey1 config ≠ EmptyString → URL_Path r ∈ protected_paths →
  ∃ next, ServeMux (authenticatedMux config) w r s
          = AuthMiddleware (APIKey1 config) (AllowedIPs config) next w r s.
Proof.
  intros Hk Hp. unfold ServeMux, authenticatedMux.
  rewrite (cleanPath_protected _ Hp), String.eqb_refl, andb_false_r.
  apply String.eqb_neq in Hk. rewrite Hk. simpl negb. cbv iota.
  revert Hp. unfold protected_paths. rewrite !elem_of_cons, elem_of_nil.
  intros [ -> | [ -> | [ -> | [ -> | [] ] ] ] ]; simpl; eauto.
Qed.

Lemma response_MetricsMiddleware (next : Handler) (w : ResponseWriter) (r : Request) (s : World) :
  String.eqb (URL_Path r) "/metrics" = false →
  response (MetricsMiddleware next w r s)
  = response (next (responseWriter (List.length (wrappers s)) w) r
                   (with_wrappers (λ ws, ws ++ [200]) s)).
Proof. intros E. unfold MetricsMiddleware. rewrite E. reflexivity. Qed.

Lemma serve_protected_denied (config : Config) (cap : HijackCap) (r : Request) (s : World) :
  APIKey1 config ≠ EmptyString → URL_Path r ∈ protected_paths →
  Method r ≠ "OPTIONS" → gate_denies (APIKey1 config) (AllowedIPs config) r →
  bare_not_found (response (serve config cap r s))
  ∧ invoked (serve config cap r s) = invoked s
  ∧ storage_calls (serve config cap r s) = storage_calls s.
Proof.
  intros Hk Hp Hm Hd. unfold serve, handler.
  pose proof (protected_not_metrics _ Hp) as Hnm.
  unfold MetricsMiddleware. rewrite Hnm. cbv zeta. unfold newResponseWriter.
  set (w := responseWriter _ _). set (s1 := with_wrappers _ _).
  unfold CORSMiddleware. apply String.eqb_neq in Hm. rewrite Hm.
  destruct (mux_protected config w r (cors_headers (AllowedOrigins config) r s1) Hk Hp)
    as (next & ->).
  rewrite auth_denied by done.
  assert (Hu : untouched (response (cors_headers (AllowedOrigins config) r s1))).
  { apply untouched_cors_headers. done. }
  destruct (stealth_or_404_outcome w _ Hu) as (Ho & Hi & Hst & _).
  destruct (cors_headers_frame (AllowedOrigins config) r s1) as (_ & _ & Hst' & Hi').
  set (s2 := stealth_or_404 _ _) in *.
  change (bare_not_found (response s2) ∧ invoked s2 = invoked s
          ∧ storage_calls s2 = storage_calls s).
  rewrite Hi, Hst, Hi', Hst'. done.
Qed.

End PipelineProofs.

(** *** C1 and C2: denied requests *)

Section DenialTheorems.
Context `{GoLib} `{Storage}.


Lemma serve_preflight (config : Config) (cap : HijackCap) (r : Request) (s : World) :
  Method r = "OPTIONS" →
  invoked (serve config cap r s) = invoked s
  ∧ storage_calls (serve config cap r s) = storage_calls s.
Proof.
  intros Hm. unfold serve, handler, MetricsMiddleware, CORSMiddleware.
  rewrite Hm. simpl String.eqb. cbv iota.
  destruct (String.eqb (URL_Path r) "/metrics").
  - destruct (WriteHeader_frame (connWriter cap) 204
                (cors_headers (AllowedOrigins config) r (new_exchange s)))
      as (_ & _ & -> & ->).
    by destruct (cors_headers_frame (AllowedOrigins config) r (new_exchange s))
      as (_ & _ & -> & ->).
  - cbv zeta. unfold newResponseWriter.
    set (w := responseWriter _ _). set (s1 := with_wrappers _ _).
    set (s2 := WriteHeader _ _ _).
    change (invoked s2 = invoked s ∧ storage_calls s2 = storage_calls s).
    subst s2.
    destruct (WriteHeader_frame w 204 (cors_headers (AllowedOrigins config) r s1))
      as (_ & _ & -> & ->).
    by destruct (cors_headers_frame (AllowedOrigins config) r s1)
      as (_ & _ & -> & ->).
Qed.

(** C2. A request denied by the API-key gate or the IP-allowlist gate, and
    every OPTIONS request, never reaches a handler: the gate and the CORS
    layer return without calling the next handler (their result is the same
    whatever the next handler is), and in the composed server no handler
    body is entered and the storage collaborator is not called. *)
Theorem denied_or_preflight_never_reaches_handler :
  (∀ apiKey allowedIPs next next' w r s,
     gate_denies apiKey allowedIPs r →
     AuthMiddleware apiKey allowedIPs next w r s
     = AuthMiddleware apiKey allowedIPs next' w r s)
  ∧ (∀ allowedOrigins next next' w r s,
       Method r = "OPTIONS" →
       CORSMiddleware allowedOrigins next w r s
       = CORSMiddleware allowedOrigins next' w r s)
  ∧ (∀ config cap r s,
       Method r = "OPTIONS"
       ∨ (APIKey1 config ≠ EmptyString ∧ URL_Path r ∈ protected_paths
          ∧ gate_denies (APIKey1 config) (AllowedIPs config) r) →
       invoked (serve config cap r s) = invoked s
       ∧ storage_calls (serve config cap r s) = storage_calls s).
Proof.
  split; [|split].
  - intros. by rewrite !auth_denied.
  - intros allowedOrigins next next' w r s Hm. unfold CORSMiddleware.
    by rewrite Hm.
  - intros config cap r s [Hm|(Hk & Hp & Hd)].
    + by apply serve_preflight.
    + destruct (decide (Method r = "OPTIONS")) as [Hm|Hm].
      * by apply serve_preflight.
      * by destruct (serve_protected_denied config cap r s Hk Hp Hm Hd) as (_ & ? & ?).
Qed.

End DenialTheorems.


(** A request from outside the allowlist and a preflight request reach no
    handler. *)
Lemma never_reaches_handler_witness :
  invoked (serve demo_config HijackSucceeds outsider_upload empty_world) = []
  ∧ invoked (serve demo_config HijackSucceeds preflight empty_world) = [].
Proof.
  split.
  - apply (proj2 (proj2 (@denied_or_preflight_never_reaches_handler ref_GoLib ref_Storage))
             demo_config HijackSucceeds outsider_upload empty_world).
    right. split; [discriminate|]. split; [apply list_elem_of_here|].
    right. split; [discriminate|reflexivity].
  - apply (proj2 (proj2 (@denied_or_preflight_never_reaches_handler ref_GoLib ref_Storage))
             demo_config HijackSucceeds preflight empty_world).
    left. reflexivity.
Defined.

(** *** C3 and C4: identity and allowlist *)

(** C3. The resolved client identity follows the fixed priority order,
    first non-empty wins: CF-Connecting-IP, then X-Real-IP, then, when
    X-Forwarded-For is not empty, its first comma-separated entry trimmed
    of surrounding whitespace, and otherwise the peer address with the port
    stripped, or the raw peer address when stripping fails. With
    CF-Connecting-IP 1.1.1.1 and X-Forwarded-For 2.2.2.2 the result is
    1.1.1.1. The function is total (indexing the split list never fails) and
    reads the request only. *)
Theorem client_identity_priority `{GoLib} :
  (∀ r, getClientIP_checked r = Some (resolved_identity r))
  ∧ (∀ r, getClientIP r = resolved_identity r)
  ∧ (∀ method path host remote,
       getClientIP (two_header_request method path host remote) = "1.1.1.1").
Proof.
  split; [|split].
  - intros r. rewrite getClientIP_checked_total. f_equal. apply getClientIP_resolved.
  - apply getClientIP_resolved.
  - intros. reflexivity.
Qed.

(** C4. The allowlist decision: a client string that is no valid IP is
    denied; otherwise the client is allowed exactly when some entry
    matches, an entry with a slash by CIDR membership of the parsed client
    (entries that are no CIDR block match nothing and do not affect the
    others), any other entry by string equality. 203.0.113.5 is allowed by
    203.0.113.0/24 and denied by 198.51.100.0/24. *)
Theorem allowlist_decision :
  (∀ (L : GoLib) clientIP allowedIPs,
     match ParseIP clientIP with
     | None => isIPAllowed clientIP allowedIPs = false
     | Some parsed =>
         isIPAllowed clientIP allowedIPs = true
         ↔ ∃ entry, entry ∈ allowedIPs ∧ entry_matches clientIP parsed entry
     end)
  ∧ isIPAllowed (H := ref_GoLib) "203.0.113.5" ["203.0.113.0/24"] = true
  ∧ isIPAllowed (H := ref_GoLib) "203.0.113.5" ["198.51.100.0/24"] = false.
Proof.
  split; [|split; reflexivity].
  intros L clientIP allowedIPs. unfold isIPAllowed.
  destruct (ParseIP clientIP) as [parsed|]; [|reflexivity].
  apply isIPAllowed_loop_spec.
Qed.

(** *** C5 and C6: the CORS layer *)

Lemma lookup_Set_eq (h : Header) (key value : string) :
  Set_ h key value !! CanonicalMIMEHeaderKey key = Some [value].
Proof. unfold Set_. apply lookup_insert_eq. Qed.

Lemma lookup_Set_ne (h : Header) (key value key' : string) :
  CanonicalMIMEHeaderKey key ≠ CanonicalMIMEHeaderKey key' →
  Set_ h key value !! CanonicalMIMEHeaderKey key' = h !! CanonicalMIMEHeaderKey key'.
Proof. intros Hne. unfold Set_. by apply lookup_insert_ne. Qed.

Lemma isOriginAllowed_loop_spec (origin : string) (allowedOrigins : list string) :
  isOriginAllowed_loop origin allowedOrigins = true ↔ origin ∈ allowedOrigins.
Proof.
  induction allowedOrigins as [|a rest IH]; simpl.
  - split; [discriminate|]. intros Hin. inversion Hin.
  - rewrite elem_of_cons. destruct (String.eqb origin a) eqn:E.
    + apply String.eqb_eq in E. tauto.
    + apply String.eqb_neq in E. tauto.
Qed.

Lemma isOriginAllowed_spec (origin : string) (allowedOrigins : list string) :
  isOriginAllowed origin allowedOrigins = true
  ↔ origin_matches_or_none_configured origin allowedOrigins.
Proof.
  unfold isOriginAllowed, origin_matches_or_none_configured.
  destruct allowedOrigins as [|a [|b rest]].
  - simpl. tauto.
  - change (((if String.eqb a "*" then true else isOriginAllowed_loop origin [a]) = true)
            ↔ [a] = [] ∨ [a] = ["*"] ∨ origin ∈ [a]).
    destruct (String.eqb a "*") eqn:E.
    + apply String.eqb_eq in E as ->. tauto.
    + apply String.eqb_neq in E. rewrite isOriginAllowed_loop_spec.
      split; [tauto|]. intros [?|[?|?]]; [done|congruence|done].
  - change (isOriginAllowed_loop origin (a :: b :: rest) = true
            ↔ a :: b :: rest = [] ∨ a :: b :: rest = ["*"] ∨ origin ∈ a :: b :: rest).
    rewrite isOriginAllowed_loop_spec. split; [tauto|].
    intros [?|[?|?]]; [done|done|done].
Qed.

Section CorsProofs.
Context `{GoLib}.




End CorsProofs.

Section CorsTheorems.
Context `{GoLib} `{Storage}.


End CorsTheorems.





(** *** C8: the status the wrapper reports *)

Lemma WriteHeader_wrappers (w : ResponseWriter) (code : Z) (s : World) (i : nat) :
  List.length (wrappers (WriteHeader w code s)) = List.length (wrappers s)
  ∧ (wrappers (WriteHeader w code s) !! i = wrappers s !! i
     ∨ wrappers (WriteHeader w code s) !! i = Some code).
Proof.
  revert s. induction w as [cap|j inner IH]; intros s; simpl.
  - split; [reflexivity|by left].
  - destruct (IH (with_wrappers (λ ws, <[j:=code]> ws) s)) as (Hlen & Hi).
    simpl in Hlen, Hi. rewrite length_insert in Hlen. split; [done|].
    destruct Hi as [Hi|Hi]; [|by right]. rewrite Hi.
    destruct (decide (j = i)) as [->|Hne].
    + destruct (decide (i < List.length (wrappers s))%nat).
      * right. by apply list_lookup_insert_eq.
      * left. rewrite list_insert_ge by lia. done.
    + left. by apply list_lookup_insert_ne.
Qed.

Lemma WriteHeader_statusCode (i : nat) (inner : ResponseWriter) (code : Z) (s : World) :
  (i < List.length (wrappers s))%nat →
  statusCode (responseWriter i inner) (WriteHeader (responseWriter i inner) code s) = code.
Proof.
  intros Hi. simpl.
  destruct (WriteHeader_wrappers inner code (with_wrappers (λ ws, <[i:=code]> ws) s) i)
    as (_ & [E|E]); rewrite E; simpl; [|done].
  by rewrite list_lookup_insert_eq.
Qed.

Lemma write_headers_statusCode (i : nat) (inner : ResponseWriter) (codes : list Z) (s : World) :
  (i < List.length (wrappers s))%nat →
  statusCode (responseWriter i inner) (write_headers (responseWriter i inner) codes s)
  = default (statusCode (responseWriter i inner) s) (last codes).
Proof.
  revert s. induction codes as [|c rest IH]; intros s Hi; [reflexivity|].
  change (write_headers (responseWriter i inner) (c :: rest) s)
    with (write_headers (responseWriter i inner) rest
            (WriteHeader (responseWriter i inner) c s)).
  rewrite IH.
  - rewrite WriteHeader_statusCode by done.
    destruct rest as [|c' rest']; [reflexivity|]. rewrite last_cons_cons.
    destruct (last (c' :: rest')) eqn:E; [reflexivity|].
    by apply last_None in E.
  - by destruct (WriteHeader_wrappers (responseWriter i inner) c s i) as (-> & _).
Qed.

(** C8, as amended. The response wrapper records the status code of the
    most recent [WriteHeader] call: after any sequence of calls on the
    wrapper the status it reports is the last code of the sequence, or 200
    when there was no call; it is the first code when at most one call was
    made. *)
Theorem wrapper_reports_last_status (inner : ResponseWriter) (codes : list Z) (s : World) :
  reported_status inner codes s = default 200 (last codes)
  ∧ ((List.length codes <= 1)%nat →
     reported_status inner codes s = default 200 (head codes)).
Proof.
  assert (E : reported_status inner codes s = default 200 (last codes)).
  { unfold reported_status, newResponseWriter.
    rewrite write_headers_statusCode.
    - simpl. rewrite lookup_app_r by done. by rewrite Nat.sub_diag.
    - simpl. rewrite length_app. simpl. lia. }
  split; [done|]. intros Hlen. rewrite E.
  destruct codes as [|c [|c' rest]]; simpl in *; [done|done|lia].
Qed.

(** One [WriteHeader] call: the code reported is that code. *)
Lemma wrapper_reports_last_status_witness :
  reported_status (connWriter HijackSucceeds) [404] empty_world = 404.
Proof.
  apply (proj2 (wrapper_reports_last_status (connWriter HijackSucceeds) [404] empty_world)).
  simpl. lia.
Defined.

(** C8 as stated fails when a second code is set: the wrapper reports the
    second code, not the first. *)
Lemma wrapper_forgets_first_status :
  reported_status (connWriter HijackSucceeds) [404; 200] empty_world = 200
  ∧ default 200 (head [404; 200]) = 404
  ∧ sent_status (response (write_headers (responseWriter 0 (connWriter HijackSucceeds))
                             [404; 200]
                             (with_wrappers (λ ws, ws ++ [200]) empty_world)))
    = Some 404.
Proof. repeat split. Qed.

(** *** C9: routes without a secret *)


(** *** C10: file types *)

Section FileTypeProofs.
Context `{GoLib} `{Storage}.

Lemma isValidImageType_loop_spec (name : string) (exts : list string) :
  isValidImageType_loop name exts = true ↔ ∃ ext, ext ∈ exts ∧ HasSuffix name ext = true.
Proof.
  induction exts as [|e rest IH]; simpl.
  - split; [discriminate|]. intros (ext & Hin & _). inversion Hin.
  - destruct (HasSuffix name e) eqn:E.
    + split; [|done]. intros _. exists e. split; [left|done].
    + rewrite IH. split.
      * intros (ext & Hin & Hs). exists ext. split; [by right|done].
      * intros (ext & Hin & Hs). apply elem_of_cons in Hin as [->|Hin].
        -- congruence.
        -- eauto.
Qed.

Lemma isValidImageType_spec (filename : string) :
  isValidImageType filename = true ↔ has_image_extension filename.
Proof. apply isValidImageType_loop_spec. Qed.

Lemma fail_with_outcome (w : ResponseWriter) (code : Z) (msg : string) (s : World) :
  untouched (response s) → bodyAllowedForStatus code = true →
  let s' := fail_with w code msg s in
  sent_status (response s') = Some code
  ∧ rs_body (response s')
    = [JsonUpload (mkUploadResponse false EmptyString EmptyString msg)]
  ∧ storage_calls s' = storage_calls s
  ∧ invoked s' = invoked s
  ∧ metrics s' = metrics s.
Proof.
  intros Hu Hb. cbv zeta. unfold fail_with. rewrite Write_frame.
  destruct (WriteHeader_untouched w code s Hu) as (Hs & Hbd & Hh).
  destruct (WriteHeader_frame w code s) as (_ & Hm & Hst & Hi).
  destruct (conn_Write_frame
              (JsonUpload (mkUploadResponse false EmptyString EmptyString msg))
              (WriteHeader w code s)) as (_ & -> & -> & ->).
  rewrite Hm, Hst, Hi. repeat split.
  - unfold conn_Write, sent_status. rewrite Hh, Hs. simpl. rewrite Hh, Hs, Hb. reflexivity.
  - unfold conn_Write. rewrite Hh, Hs. simpl. rewrite Hh, Hs, Hb. simpl. by rewrite Hbd.
Qed.

Lemma untouched_enter_set (id : HandlerId) (key value : string) (s : World) :
  untouched (response s) → untouched (response (Header_Set key value (enter id s))).
Proof. done. Qed.

End FileTypeProofs.

Section FileTypeTheorems.
Context `{GoLib} `{Storage}.

(** C10. Both handlers reject a file name whose lowercased form ends in
    none of .jpg, .jpeg, .png, .gif, .webp, .bmp, .svg: for a POST whose
    body decodes to such a name (the multipart form with an image file for
    the upload handler, the JSON object for the signed-URL handler) the
    answer is status 400 with a JSON body that has success = false and an
    error message that is not empty, and the storage collaborator is not
    called. *)
Theorem invalid_file_type_is_rejected :
  (∀ gcsClient config w r s files header,
     untouched (response s) →
     Method r = "POST" →
     ParseMultipartForm r (MaxFileSize config) = inr files →
     FormFile files "image" = Some header →
     ¬ has_image_extension (Filename header) →
     let s' := HandleUpload gcsClient config w r s in
     sent_status (response s') = Some 400
     ∧ json_failure (rs_body (response s'))
     ∧ storage_calls s' = storage_calls s)
  ∧ (∀ gcsClient w r s req,
       untouched (response s) →
       Method r = "POST" →
       Body_Decode r = inr req →
       ¬ has_image_extension (sur_Filename req) →
       let s' := HandleGenerateSignedUrl gcsClient w r s in
       sent_status (response s') = Some 400
       ∧ json_failure (rs_body (response s'))
       ∧ storage_calls s' = storage_calls s
       ∧ signedURLCreatedTotal (metrics s') = signedURLCreatedTotal (metrics s)).
Proof.
  split.
  - intros gcsClient config w r s files header Hu Hm Hp Hf Hx. cbv zeta.
    assert (Hv : isValidImageType (Filename header) = false).
    { destruct (isValidImageType (Filename header)) eqn:E; [|done].
      by apply isValidImageType_spec in E. }
    unfold HandleUpload. rewrite Hm, Hp, Hf, Hv. simpl negb. cbv iota.
    pose proof (untouched_enter_set (H_Upload gcsClient) "Content-Type"
                  "application/json" s Hu) as Hu'.
    destruct (MaxFileSize config <? Size header).
    + destruct (fail_with_outcome w 400
                  ("File too large. Max size: "
                   +:+ pretty (MaxFileSize config `quot` (1024 * 1024)) +:+ " MB")
                  _ Hu' eq_refl) as (-> & -> & -> & _).
      split; [done|]. split; [|done]. eexists. split; [done|]. split; done.
    + destruct (fail_with_outcome w 400
                  "Invalid file type. Allowed: jpg, jpeg, png, gif, webp, bmp, svg"
                  _ Hu' eq_refl) as (-> & -> & -> & _).
      split; [done|]. split; [|done]. eexists. split; [done|]. split; done.
  - intros gcsClient w r s req Hu Hm Hd Hx. cbv zeta.
    assert (Hv : isValidImageType (sur_Filename req) = false).
    { destruct (isValidImageType (sur_Filename req)) eqn:E; [|done].
      by apply isValidImageType_spec in E. }
    unfold HandleGenerateSignedUrl. rewrite Hm, Hd, Hv. simpl negb. cbv iota.
    pose proof (untouched_enter_set (H_SignedUrl gcsClient) "Content-Type"
                  "application/json" s Hu) as Hu'.
    destruct (String.eqb (sur_Filename req) EmptyString
              || String.eqb (sur_ContentType req) EmptyString).
    + destruct (fail_with_outcome w 400 "Filename and ContentType are required"
                  _ Hu' eq_refl) as (-> & -> & -> & _ & ->).
      split; [done|]. split; [|done]. eexists. split; [done|]. split; done.
    + destruct (fail_with_outcome w 400 "Invalid file type"
                  _ Hu' eq_refl) as (-> & -> & -> & _ & ->).
      split; [done|]. split; [|done]. eexists. split; [done|]. split; done.
Qed.

End FileTypeTheorems.

Lemma exe_has_no_image_extension : ¬ has_image_extension "setup.exe".
Proof.
  intros (ext & Hin & Hs). unfold image_extensions in Hin.
  repeat (apply elem_of_cons in Hin as [->|Hin]; [discriminate Hs|]).
  inversion Hin.
Qed.

(** An executable sent to either handler. *)
Lemma invalid_file_type_witness :
  sent_status (response (HandleUpload (mkGCSClient "images-prod") demo_config
                           (connWriter HijackSucceeds) exe_post empty_world)) = Some 400
  ∧ sent_status (response (HandleGenerateSignedUrl (mkGCSClient "images-prod")
                             (connWriter HijackSucceeds) signedurl_exe empty_world))
    = Some 400.
Proof.
  assert (Hu : untouched (response empty_world)) by (repeat split; reflexivity).
  split.
  - destruct (proj1 (@invalid_file_type_is_rejected ref_GoLib ref_Storage)
                (mkGCSClient "images-prod") demo_config (connWriter HijackSucceeds)
                exe_post empty_world _ _ Hu eq_refl eq_refl eq_refl
                exe_has_no_image_extension) as (Hs & _).
    exact Hs.
  - destruct (proj2 (@invalid_file_type_is_rejected ref_GoLib ref_Storage)
                (mkGCSClient "images-prod") (connWriter HijackSucceeds)
                signedurl_exe empty_world _ Hu eq_refl eq_refl
                exe_has_no_image_extension) as (Hs & _).
    exact Hs.
Defined.

(** *** C7: the metrics layer *)



Section WrapperSteps.
Variables (i : nat) (cap : HijackCap).




End WrapperSteps.

Section WellBehaved.
Context `{GoLib} `{Storage}.















End WellBehaved.

Section MetricsTheorems.
Context `{GoLib} `{Storage}.





End MetricsTheorems.


(** ** Further properties of the code *)

(** *** The gate, beyond denial *)

Lemma Get_Set_same (h : Header) (key value : string) : Get (Set_ h key value) key = value.
Proof. unfold Get. by rewrite lookup_Set_eq. Qed.

Lemma Get_Set_other (h : Header) (key value key' : string) :
  CanonicalMIMEHeaderKey key ≠ CanonicalMIMEHeaderKey key' →
  Get (Set_ h key value) key' = Get h key'.
Proof. intros Hne. unfold Get. by rewrite lookup_Set_ne. Qed.

Section GateExtras.
Context `{GoLib}.

(** X1. A gate built with the empty string as its key denies every
    request, whatever key the request sends or omits: it runs the denial
    block and never calls the next handler. *)
Theorem gate_with_empty_key_denies_all (allowedIPs : list string) (next : Handler)
    (w : ResponseWriter) (r : Request) (s : World) :
  AuthMiddleware EmptyString allowedIPs next w r s = stealth_or_404 w s.
Proof.
  apply auth_denied. left. unfold key_rejected.
  destruct (decide (Get (ReqHeader r) "X-API-Key" = EmptyString)); tauto.
Qed.

Lemma not_denied_accepted (apiKey : string) (allowedIPs : list string) (r : Request) :
  ¬ gate_denies apiKey allowedIPs r →
  Get (ReqHeader r) "X-API-Key" = apiKey ∧ apiKey ≠ EmptyString
  ∧ (allowedIPs = [] ∨ isIPAllowed (getClientIP r) allowedIPs = true).
Proof.
  intros Hn.
  assert (Hk : Get (ReqHeader r) "X-API-Key" = apiKey).
  { destruct (decide (Get (ReqHeader r) "X-API-Key" = apiKey)); [done|].
    exfalso. apply Hn. left. unfold key_rejected. tauto. }
  split; [done|]. split.
  - intros ->. apply Hn. left. unfold key_rejected. tauto.
  - destruct allowedIPs as [|a rest]; [by left|]. right.
    destruct (isIPAllowed (getClientIP r) (a :: rest)) eqn:E; [done|].
    exfalso. apply Hn. right. by split.
Qed.

(** X2. A request the gate does not deny (it carries the configured key,
    and the allowlist is empty or allows the resolved client) is handed to
    the next handler with the same writer, the same request and the same
    state: the gate writes nothing and changes nothing on that path. *)
Theorem gate_forwards_what_it_does_not_deny (apiKey : string) (allowedIPs : list string)
    (next : Handler) (w : ResponseWriter) (r : Request) (s : World) :
  ¬ gate_denies apiKey allowedIPs r →
  AuthMiddleware apiKey allowedIPs next w r s = next w r s.
Proof.
  intros Hn. destruct (not_denied_accepted _ _ _ Hn) as (Hk & Hne & Hip).
  by apply auth_forwarded.
Qed.

(** X3. The resolved identity is whatever a non-empty CF-Connecting-IP
    header says, whatever the peer address and the other headers are; so a
    request with the configured key passes the IP allowlist from any peer
    as soon as that header names an allowed address. *)
Theorem cf_header_decides_identity (r : Request) (claimed : string) :
  claimed ≠ EmptyString →
  getClientIP (with_header r "CF-Connecting-IP" claimed) = claimed
  ∧ ∀ apiKey allowedIPs next w s,
      apiKey ≠ EmptyString → Get (ReqHeader r) "X-API-Key" = apiKey →
      isIPAllowed claimed allowedIPs = true →
      AuthMiddleware apiKey allowedIPs next w (with_header r "CF-Connecting-IP" claimed) s
      = next w (with_header r "CF-Connecting-IP" claimed) s.
Proof.
  intros Hc.
  assert (E : getClientIP (with_header r "CF-Connecting-IP" claimed) = claimed).
  { unfold getClientIP, getClientIP_checked, with_header. simpl.
    rewrite Get_Set_same. apply String.eqb_neq in Hc. by rewrite Hc. }
  split; [done|]. intros apiKey allowedIPs next w s Hne Hk Hip.
  apply auth_forwarded; [|done|].
  - unfold with_header. simpl. rewrite Get_Set_other by (vm_compute; discriminate). done.
  - right. by rewrite E.
Qed.

End GateExtras.

(** The accepted upload of the worked inputs is forwarded. *)
Lemma gate_forwards_witness :
  AuthMiddleware "s3cret" ["203.0.113.0/24"] HandleHealth (connWriter HijackSucceeds)
    good_upload empty_world
  = HandleHealth (connWriter HijackSucceeds) good_upload empty_world.
Proof.
  apply (@gate_forwards_what_it_does_not_deny ref_GoLib).
  intros [[Hm|[He|Hn]]|[_ Hip]]; [discriminate Hm|discriminate He| |discriminate Hip].
  by apply Hn.
Defined.

(** An outsider that names an allowed address is forwarded. *)
Lemma cf_header_witness :
  getClientIP (with_header outsider_upload "CF-Connecting-IP" "203.0.113.5") = "203.0.113.5"
  ∧ AuthMiddleware "s3cret" ["203.0.113.0/24"] HandleHealth (connWriter HijackSucceeds)
      (with_header outsider_upload "CF-Connecting-IP" "203.0.113.5") empty_world
    = HandleHealth (connWriter HijackSucceeds)
        (with_header outsider_upload "CF-Connecting-IP" "203.0.113.5") empty_world.
Proof.
  assert (Hc : "203.0.113.5" ≠ EmptyString) by discriminate.
  destruct (@cf_header_decides_identity ref_GoLib outsider_upload "203.0.113.5" Hc)
    as (E & F).
  split; [exact E|]. apply F; [discriminate|reflexivity|reflexivity].
Defined.

(** *** The allowlist and the origin policy as sets of entries *)

Section AllowlistExtras.
Context `{GoLib}.

Lemma isIPAllowed_iff (clientIP : string) (allowedIPs : list string) :
  isIPAllowed clientIP allowedIPs = true
  ↔ ∃ parsed, ParseIP clientIP = Some parsed
      ∧ ∃ entry, entry ∈ allowedIPs ∧ entry_matches clientIP parsed entry.
Proof.
  unfold isIPAllowed. destruct (ParseIP clientIP) as [parsed|].
  - rewrite isIPAllowed_loop_spec. split; [eauto|]. by intros (? & [= <-] & ?).
  - split; [discriminate|]. by intros (? & ? & _).
Qed.

Lemma isIPAllowed_ext (clientIP : string) (l l' : list string) :
  (∀ parsed entry, ParseIP clientIP = Some parsed →
     entry_matches clientIP parsed entry → entry ∈ l → entry ∈ l') →
  isIPAllowed clientIP l = true → isIPAllowed clientIP l' = true.
Proof.
  intros Hsub. rewrite !isIPAllowed_iff.
  intros (parsed & Hp & entry & Hin & Hm). exists parsed. split; [done|].
  exists entry. split; [|done]. by apply (Hsub parsed).
Qed.

(** X4. The allowlist decision depends on the set of entries only: it is
    the same for every reordering of the list, adding entries never
    revokes access, and an entry with a slash that is no CIDR block can be
    removed from anywhere in the list without changing any decision. *)
Theorem allowlist_is_a_set_of_entries (clientIP : string) :
  (∀ l l', l ≡ₚ l' → isIPAllowed clientIP l = isIPAllowed clientIP l')
  ∧ (∀ l more, isIPAllowed clientIP l = true →
       isIPAllowed clientIP (l ++ more) = true
       ∧ isIPAllowed clientIP (more ++ l) = true)
  ∧ (∀ l1 l2 bad,
       Contains bad "/" = true → ParseCIDR bad = None →
       isIPAllowed clientIP (l1 ++ bad :: l2) = isIPAllowed clientIP (l1 ++ l2)).
Proof.
  assert (Heq : ∀ l l',
            (isIPAllowed clientIP l = true → isIPAllowed clientIP l' = true) →
            (isIPAllowed clientIP l' = true → isIPAllowed clientIP l = true) →
            isIPAllowed clientIP l = isIPAllowed clientIP l').
  { intros l l' H1 H2.
    destruct (isIPAllowed clientIP l), (isIPAllowed clientIP l'); try done.
    - symmetry. by apply H1.
    - by apply H2. }
  split; [|split].
  - intros l l' Hp. apply Heq; apply isIPAllowed_ext; intros ? entry _ _ Hin.
    + by rewrite <- Hp.
    + by rewrite Hp.
  - intros l more Ha. split; revert Ha; apply isIPAllowed_ext;
      intros ? entry _ _ Hin; apply elem_of_app; tauto.
  - intros l1 l2 bad Hslash Hbad. apply Heq; apply isIPAllowed_ext;
      intros parsed entry _ Hm Hin.
    + apply elem_of_app in Hin as [Hin|Hin]; [apply elem_of_app; tauto|].
      apply elem_of_cons in Hin as [->|Hin]; [|apply elem_of_app; tauto].
      exfalso. unfold entry_matches in Hm. rewrite Hslash in Hm.
      destruct Hm as (block & Hb & _). congruence.
    + apply elem_of_app in Hin as [Hin|Hin]; apply elem_of_app; [tauto|].
      right. by right.
Qed.

End AllowlistExtras.

(** A malformed block in the middle of the list is inert. *)
Lemma allowlist_is_a_set_witness :
  isIPAllowed "203.0.113.5" (["198.51.100.0/24"] ++ "203.0.113.0/240" :: ["203.0.113.0/24"])
  = isIPAllowed "203.0.113.5" (["198.51.100.0/24"] ++ ["203.0.113.0/24"]).
Proof.
  apply (proj2 (proj2 (@allowlist_is_a_set_of_entries ref_GoLib "203.0.113.5")));
    reflexivity.
Defined.

(** X5. A wildcard entry is a wildcard only when it is the whole list:
    with two or more entries the origin is allowed exactly when it equals
    one of them, so a star among several entries allows only the origin
    that is literally a star. *)
Theorem wildcard_only_when_alone (origin : string) (allowedOrigins : list string) :
  (2 <= List.length allowedOrigins)%nat →
  (isOriginAllowed origin allowedOrigins = true ↔ origin ∈ allowedOrigins)
  ∧ (origin ≠ "*" → origin ∉ allowedOrigins →
     isOriginAllowed origin ("*" :: allowedOrigins) = false).
Proof.
  intros Hlen.
  destruct allowedOrigins as [|a [|b rest]]; simpl in Hlen; [lia|lia|].
  split.
  - apply isOriginAllowed_loop_spec.
  - intros Hs Hn.
    destruct (isOriginAllowed origin ("*" :: a :: b :: rest)) eqn:E; [|done].
    apply isOriginAllowed_loop_spec in E.
    apply elem_of_cons in E as [E|E]; done.
Qed.

Lemma wildcard_only_when_alone_witness :
  isOriginAllowed "https://evil.example" ["*"; "https://example.com"; "https://other.com"]
  = false.
Proof.
  apply (proj2 (wildcard_only_when_alone "https://evil.example"
                  ["https://example.com"; "https://other.com"] (le_n 2))).
  - discriminate.
  - intros Hin. repeat (apply elem_of_cons in Hin as [Hin|Hin]; [discriminate Hin|]).
    inversion Hin.
Defined.

(** *** Configuration loading *)

Lemma Split_length (s : string) (sep : ascii) :
  List.length (Split s sep) = S (count_byte sep s).
Proof.
  induction s as [|c s IH]; simpl; [reflexivity|].
  destruct (Ascii.eqb c sep); simpl; [by rewrite IH|].
  destruct (Split s sep) as [|piece rest] eqn:E; simpl in *; [discriminate|done].
Qed.

Lemma getEnv_spec (env : Env) (key defaultValue : string) :
  getEnv env key defaultValue
  = if String.eqb (Getenv env key) EmptyString then defaultValue else Getenv env key.
Proof. reflexivity. Qed.

Section ConfigExtras.
Context `{GoLib}.

(** X6. Whatever the environment holds, [LoadConfig] yields a list of
    allowed origins that is not empty (an unset or empty ALLOWED_ORIGINS
    counts as a star, and splitting always gives one piece), so for a
    loaded configuration an origin is allowed exactly when the list is the
    single star or contains the origin. *)
Theorem loaded_origins_are_never_empty (env : Env) (origin : string) :
  AllowedOrigins (LoadConfig env) ≠ []
  ∧ List.length (AllowedOrigins (LoadConfig env))
    = S (count_byte "," (getEnv env "ALLOWED_ORIGINS" "*"))
  ∧ (isOriginAllowed origin (AllowedOrigins (LoadConfig env)) = true
     ↔ origin_matches_policy origin (AllowedOrigins (LoadConfig env))).
Proof.
  assert (Hlen : List.length (AllowedOrigins (LoadConfig env))
                 = S (count_byte "," (getEnv env "ALLOWED_ORIGINS" "*"))).
  { unfold LoadConfig. simpl. by rewrite length_map, Split_length. }
  assert (Hne : AllowedOrigins (LoadConfig env) ≠ []).
  { intros E. rewrite E in Hlen. discriminate. }
  split; [done|]. split; [done|].
  rewrite isOriginAllowed_spec.
  unfold origin_matches_or_none_configured, origin_matches_policy. tauto.
Qed.

(** X7. The IP allowlist of a loaded configuration: empty (the IP check
    is off) exactly when ALLOWED_IPS is unset or empty; otherwise it holds
    one trimmed entry per comma-separated piece, one more than there are
    commas, so it is never empty then, even when no piece names an
    address. *)
Theorem loaded_allowlist (env : Env) :
  (Getenv env "ALLOWED_IPS" = EmptyString ↔ AllowedIPs (LoadConfig env) = [])
  ∧ (Getenv env "ALLOWED_IPS" ≠ EmptyString →
     AllowedIPs (LoadConfig env) = map TrimSpace (Split (Getenv env "ALLOWED_IPS") ",")
     ∧ List.length (AllowedIPs (LoadConfig env))
       = S (count_byte "," (Getenv env "ALLOWED_IPS"))).
Proof.
  unfold LoadConfig. simpl. rewrite getEnv_spec.
  destruct (String.eqb (Getenv env "ALLOWED_IPS") EmptyString) eqn:E; simpl.
  - apply String.eqb_eq in E. split; [done|]. by intros Hne.
  - rewrite E. simpl. apply String.eqb_neq in E. split.
    + split; [done|]. intros Hnil. exfalso.
      apply (f_equal (@List.length string)) in Hnil.
      rewrite length_map, Split_length in Hnil. discriminate.
    + intros _. split; [done|]. by rewrite length_map, Split_length.
Qed.

End ConfigExtras.

Lemma loaded_allowlist_witness :
  List.length (AllowedIPs (LoadConfig (<["ALLOWED_IPS" := "10.0.0.1, 10.0.0.0/8,"]> ∅)))
  = 3%nat.
Proof.
  assert (Hset : Getenv (<["ALLOWED_IPS" := "10.0.0.1, 10.0.0.0/8,"]> ∅) "ALLOWED_IPS"
                 ≠ EmptyString) by discriminate.
  destruct (proj2 (@loaded_allowlist ref_GoLib
                     (<["ALLOWED_IPS" := "10.0.0.1, 10.0.0.0/8,"]> ∅)) Hset) as (_ & E).
  exact E.
Defined.

Lemma digit_range (c : ascii) :
  is_digit c = true → 0 <= Z.of_nat (nat_of_ascii c) - 48 <= 9.
Proof.
  unfold is_digit, byte_in.
  change (nat_of_ascii "0") with 48%nat. change (nat_of_ascii "9") with 57%nat.
  intros Hd. apply andb_true_iff in Hd as [H1 H2].
  apply Nat.leb_le in H1, H2. lia.
Qed.

Lemma digits_value_ge (s : string) (acc n : Z) :
  digits_value acc s = Some n → 0 <= acc → acc <= n.
Proof.
  revert acc. induction s as [|c s IH]; intros acc; simpl.
  - intros [= <-] _. lia.
  - destruct (is_digit c) eqn:Hd; [|discriminate]. intros Hv Hacc.
    pose proof (digit_range c Hd). apply IH in Hv; lia.
Qed.

Lemma ParseUint_loop_value (s : string) (acc n : Z) :
  digits_value acc s = Some n → 0 <= acc → n < 2 ^ 63 →
  ParseUint_loop acc s = UintOk n.
Proof.
  revert acc. induction s as [|c s IH]; intros acc; simpl.
  - by intros [= <-].
  - destruct (is_digit c) eqn:Hd; [|discriminate]. intros Hv Hacc Hn. simpl.
    pose proof (digit_range c Hd) as Hc.
    pose proof (digits_value_ge _ _ _ Hv ltac:(lia)) as Hge.
    assert (H63 : 2 ^ 63 = 9223372036854775808) by reflexivity.
    destruct (1844674407370955162 <=? acc) eqn:E1; [apply Z.leb_le in E1; lia|].
    destruct (18446744073709551615 <? acc * 10 + (Z.of_nat (nat_of_ascii c) - 48)) eqn:E2;
      [apply Z.ltb_lt in E2; lia|].
    apply IH; [done|lia|done].
Qed.

Lemma ParseUint_loop_syntax (s : string) (acc : Z) :
  digits_value acc s = None → 0 <= acc →
  (acc + 1) * 10 ^ Z.of_nat (String.length s) <= 10 ^ 18 →
  ParseUint_loop acc s = UintSyntax.
Proof.
  revert acc. induction s as [|c s IH]; intros acc; simpl String.length; simpl digits_value;
    [discriminate|].
  destruct (is_digit c) eqn:Hd; [|by simpl; rewrite Hd].
  intros Hv Hacc Hb. simpl. rewrite Hd. simpl.
  pose proof (digit_range c Hd) as Hc.
  rewrite Nat2Z.inj_succ, Z.pow_succ_r in Hb by lia.
  assert (HP : 1 <= 10 ^ Z.of_nat (String.length s)).
  { pose proof (Z.pow_pos_nonneg 10 (Z.of_nat (String.length s))). lia. }
  assert (H18 : 10 ^ 18 = 1000000000000000000) by reflexivity.
  assert (Hacc' : acc * 10 + 10 <= 10 ^ 18) by nia.
  destruct (1844674407370955162 <=? acc) eqn:E1; [apply Z.leb_le in E1; lia|].
  destruct (18446744073709551615 <? acc * 10 + (Z.of_nat (nat_of_ascii c) - 48)) eqn:E2;
    [apply Z.ltb_lt in E2; lia|].
  apply IH; [done|lia|]. nia.
Qed.

Lemma wrap_int64_small (z : Z) : - 2 ^ 63 <= z < 2 ^ 63 → wrap_int64 z = z.
Proof.
  intros Hz. unfold wrap_int64.
  assert (H63 : 2 ^ 63 = 9223372036854775808) by reflexivity.
  assert (H64 : 2 ^ 64 = 18446744073709551616) by reflexivity.
  rewrite Z.mod_small by lia. lia.
Qed.

Lemma unsigned_start (c : ascii) : is_digit c = true → Ascii.eqb c "+" || Ascii.eqb c "-" = false.
Proof.
  intros Hd. destruct (Ascii.eqb c "+") eqn:E1.
  - apply Ascii.eqb_eq in E1. subst c. discriminate Hd.
  - destruct (Ascii.eqb c "-") eqn:E2; [|done].
    apply Ascii.eqb_eq in E2. subst c. discriminate Hd.
Qed.

Lemma Atoi_digits (v : string) (n : Z) :
  v ≠ EmptyString → digits_value 0 v = Some n → n < 2 ^ 63 → Atoi v = n.
Proof.
  intros Hne Hv Hn. destruct v as [|c rest]; [done|].
  assert (Hd : is_digit c = true).
  { simpl in Hv. by destruct (is_digit c). }
  unfold Atoi. pose proof (unsigned_start c Hd) as Hs.
  destruct (Ascii.eqb c "-") eqn:Hneg.
  { rewrite orb_true_r in Hs. discriminate. }
  rewrite Hs. rewrite (ParseUint_loop_value _ _ _ Hv) by (done || lia).
  destruct (2 ^ 63 <=? n) eqn:E; [apply Z.leb_le in E; lia|done].
Qed.

Lemma Atoi_malformed (c : ascii) (rest : string) :
  c ≠ "+"%char → c ≠ "-"%char → digits_value 0 (String c rest) = None →
  (String.length (String c rest) <= 18)%nat → Atoi (String c rest) = 0.
Proof.
  intros Hp Hm Hv Hlen. unfold Atoi.
  apply Ascii.eqb_neq in Hp, Hm. rewrite Hp, Hm. simpl orb. cbv iota.
  rewrite ParseUint_loop_syntax; [done|done|lia|].
  rewrite Z.mul_1_l. apply Z.pow_le_mono_r; lia.
Qed.

Section SizeLimit.
Context `{GoLib} `{Storage}.

(** X8. The upload size limit of a loaded configuration: 10 MiB when
    MAX_FILE_SIZE_MB is unset or empty; n MiB when it is a run of digits
    with value n below 2^43 (no 64-bit wrap-around); and 0 when it is at
    most 18 bytes, does not start with a sign and holds a byte that is no
    digit, because the conversion error is dropped. *)
Theorem loaded_size_limit (env : Env) :
  (Getenv env "MAX_FILE_SIZE_MB" = EmptyString →
   MaxFileSize (LoadConfig env) = 10 * 1048576)
  ∧ (∀ n, Getenv env "MAX_FILE_SIZE_MB" ≠ EmptyString →
       digits_value 0 (Getenv env "MAX_FILE_SIZE_MB") = Some n → n < 2 ^ 43 →
       MaxFileSize (LoadConfig env) = n * 1048576)
  ∧ (∀ c rest, Getenv env "MAX_FILE_SIZE_MB" = String c rest →
       c ≠ "+"%char → c ≠ "-"%char →
       digits_value 0 (String c rest) = None →
       (String.length (String c rest) <= 18)%nat →
       MaxFileSize (LoadConfig env) = 0).
Proof.
  unfold LoadConfig. simpl MaxFileSize. rewrite getEnv_spec.
  split; [|split].
  - intros ->. reflexivity.
  - intros n Hne Hv Hn. apply String.eqb_neq in Hne as Hne'. rewrite Hne'.
    pose proof (digits_value_ge _ _ _ Hv ltac:(lia)) as Hge.
    assert (H43 : 2 ^ 43 = 8796093022208) by reflexivity.
    assert (H63 : 2 ^ 63 = 9223372036854775808) by reflexivity.
    rewrite (Atoi_digits _ n) by (done || lia).
    rewrite (wrap_int64_small (n * 1024)) by lia.
    rewrite wrap_int64_small by lia. lia.
  - intros c rest Hv Hp Hm Hd Hlen. rewrite Hv. simpl String.eqb. cbv iota.
    by rewrite Atoi_malformed.
Qed.

(** X9. The size check of the upload handler comes before the type check
    and before storage: a POST whose image file is larger than the limit
    is answered 400 with a JSON failure naming the limit in MiB (the limit
    divided by 2^20, truncated), and storage is not called. With a limit
    of 0 or less this rejects every file of positive size. *)
Theorem oversized_upload_is_rejected (gcsClient : GCSClient) (config : Config)
    (w : ResponseWriter) (r : Request) (s : World)
    (files : list (string * FileHeader)) (header : FileHeader) :
  untouched (response s) →
  Method r = "POST" →
  ParseMultipartForm r (MaxFileSize config) = inr files →
  FormFile files "image" = Some header →
  MaxFileSize config < Size header →
  let s' := HandleUpload gcsClient config w r s in
  sent_status (response s') = Some 400
  ∧ rs_body (response s')
    = [JsonUpload (mkUploadResponse false EmptyString EmptyString
         ("File too large. Max size: "
          +:+ pretty (Z.quot (MaxFileSize config) 1048576) +:+ " MB"))]
  ∧ storage_calls s' = storage_calls s.
Proof.
  intros Hu Hm Hp Hf Hsz. cbv zeta. unfold HandleUpload.
  rewrite Hm, Hp, Hf. simpl negb. cbv iota.
  apply Z.ltb_lt in Hsz. rewrite Hsz.
  pose proof (untouched_enter_set (H_Upload gcsClient) "Content-Type"
                "application/json" s Hu) as Hu'.
  by destruct (fail_with_outcome w 400
                 ("File too large. Max size: "
                  +:+ pretty (MaxFileSize config `quot` (1024 * 1024)) +:+ " MB")
                 _ Hu' eq_refl) as (-> & -> & -> & _).
Qed.

End SizeLimit.

(** A limit written with its unit is read as 0, and a valid image is then
    too large. *)
Lemma loaded_size_limit_witness :
  MaxFileSize (LoadConfig (<["MAX_FILE_SIZE_MB" := "10MB"]> ∅)) = 0.
Proof.
  apply (proj2 (proj2 (@loaded_size_limit ref_GoLib (<["MAX_FILE_SIZE_MB" := "10MB"]> ∅)))
           "1"%char "0MB"); try reflexivity; try discriminate.
  simpl. lia.
Defined.

Lemma oversized_upload_witness :
  sent_status
    (response (HandleUpload (mkGCSClient "images-prod")
                 (LoadConfig (<["MAX_FILE_SIZE_MB" := "10MB"]> ∅))
                 (connWriter HijackSucceeds) good_upload empty_world))
  = Some 400.
Proof.
  assert (Hu : untouched (response empty_world)) by (repeat split; reflexivity).
  assert (Hlt : MaxFileSize (LoadConfig (<["MAX_FILE_SIZE_MB" := "10MB"]> ∅)) < 2048)
    by reflexivity.
  destruct (@oversized_upload_is_rejected ref_GoLib ref_Storage
              (mkGCSClient "images-prod")
              (LoadConfig (<["MAX_FILE_SIZE_MB" := "10MB"]> ∅))
              (connWriter HijackSucceeds) good_upload empty_world
              [("image", mkFileHeader "cat.PNG" 2048 "png bytes")]
              (mkFileHeader "cat.PNG" 2048 "png bytes")
              Hu eq_refl eq_refl eq_refl Hlt) as (E & _).
  exact E.
Defined.

(** *** The outcomes of the two handlers *)



Section HandlerOutcomes.
Context `{GoLib} `{Storage}.


End HandlerOutcomes.

Section SignedUrlOutcomes.
Context `{GoLib} `{Storage}.


End SignedUrlOutcomes.



(** *** The composed server *)


Section ServerExtras.
Context `{GoLib} `{Storage}.




End ServerExtras.

(** *** Storage calls by route *)

Lemma storage_Write (w : ResponseWriter) (c : Chunk) (s : World) :
  storage_calls (Write w c s) = storage_calls s.
Proof. rewrite Write_frame. by destruct (conn_Write_frame c s) as (_ & _ & -> & _). Qed.

Lemma storage_WriteHeader (w : ResponseWriter) (code : Z) (s : World) :
  storage_calls (WriteHeader w code s) = storage_calls s.
Proof. by destruct (WriteHeader_frame w code s) as (_ & _ & -> & _). Qed.

Lemma storage_stealth_or_404 `{GoLib} (w : ResponseWriter) (s : World) :
  storage_calls (stealth_or_404 w s) = storage_calls s.
Proof.
  unfold stealth_or_404. destruct (try_Hijack w s) as [s'|] eqn:E.
  - destruct w as [[]|]; simpl in E; try discriminate.
    destruct (rs_hijacked (response s)); [discriminate|]. by injection E as <-.
  - apply storage_WriteHeader.
Qed.

Section StorageByRoute.
Context `{GoLib} `{Storage}.

Lemma no_calls_calls_only (P : StorageCall → Prop) (h : Handler) :
  (∀ w r s, storage_calls (h w r s) = storage_calls s) → calls_only P h.
Proof. intros Hn w r s. left. apply Hn. Qed.

Lemma HandleUpload_calls (gcsClient : GCSClient) (config : Config) :
  calls_only (λ call, ∃ header, call = CallUploadImage gcsClient header)
             (HandleUpload gcsClient config).
Proof.
  intros w r s. unfold at_most_one_call, HandleUpload, fail_with, succeed_with.
  repeat case_match; rewrite !storage_Write, !storage_WriteHeader;
    cbn [storage_calls Header_Set enter with_response with_storage_call]; eauto.
Qed.

Lemma HandleGenerateSignedUrl_calls (gcsClient : GCSClient) :
  calls_only (λ call, ∃ object contentType,
                call = CallSignedURL gcsClient object contentType)
             (HandleGenerateSignedUrl gcsClient).
Proof.
  intros w r s.
  unfold at_most_one_call, HandleGenerateSignedUrl, fail_with, succeed_with.
  repeat case_match; rewrite !storage_Write, !storage_WriteHeader;
    cbn [storage_calls Header_Set enter with_response with_storage_call
         IncrementSignedURLCounter with_metrics];
    first [by left | right; eexists; split; [by eexists _, _|done]].
Qed.

Lemma AuthMiddleware_calls (P : StorageCall → Prop) (apiKey : string)
    (allowedIPs : list string) (next : Handler) :
  calls_only P next → calls_only P (AuthMiddleware apiKey allowedIPs next).
Proof.
  intros Hn w r s. unfold AuthMiddleware.
  repeat case_match; first [apply Hn | left; apply storage_stealth_or_404].
Qed.

Lemma calls_only_weaken (P Q : StorageCall → Prop) (h : Handler) :
  (∀ call, P call → Q call) → calls_only P h → calls_only Q h.
Proof.
  intros HPQ Hh w r s. destruct (Hh w r s) as [E|(call & Hc & E)]; [by left|].
  right. exists call. split; [by apply HPQ|done].
Qed.

Lemma authenticatedMux_calls (config : Config) (path : string) (h : Handler) :
  lookup_pattern (authenticatedMux config) path = Some h →
  calls_only (route_call config path) h.
Proof.
  assert (Hhealth : calls_only (route_call config "/health") HandleHealth).
  { apply no_calls_calls_only. intros. unfold HandleHealth. by rewrite storage_Write. }
  assert (Hprom : calls_only (route_call config "/metrics") promhttp_Handler).
  { apply no_calls_calls_only. intros. unfold promhttp_Handler. by rewrite storage_Write. }
  assert (Hup : ∀ p c, (p = "/upload" ∧ c = mkGCSClient (BucketName1 config))
                       ∨ (p = "/upload-dev" ∧ c = mkGCSClient (BucketName2 config)) →
                calls_only (route_call config p) (HandleUpload c config)).
  { intros p c Hpc. eapply calls_only_weaken; [|apply HandleUpload_calls].
    by intros call (header & ->). }
  assert (Hsu : ∀ p c, (p = "/signedurl" ∧ c = mkGCSClient (BucketName1 config))
                       ∨ (p = "/signedurl-dev" ∧ c = mkGCSClient (BucketName2 config)) →
                calls_only (route_call config p) (HandleGenerateSignedUrl c)).
  { intros p c Hpc. eapply calls_only_weaken; [|apply HandleGenerateSignedUrl_calls].
    by intros call (object & contentType & ->). }
  unfold authenticatedMux, darlingimagesClientProd, darlingimagesClientDev.
  destruct (negb _); cbn [app lookup_pattern].
  - destruct (String.eqb "/health" path) eqn:E1;
      [apply String.eqb_eq in E1; subst path; by intros [= <-]|].
    destruct (String.eqb "/metrics" path) eqn:E2;
      [apply String.eqb_eq in E2; subst path; by intros [= <-]|].
    destruct (String.eqb "/upload" path) eqn:E3;
      [apply String.eqb_eq in E3; subst path; intros [= <-];
       apply AuthMiddleware_calls, Hup; tauto|].
    destruct (String.eqb "/signedurl" path) eqn:E4;
      [apply String.eqb_eq in E4; subst path; intros [= <-];
       apply AuthMiddleware_calls, Hsu; tauto|].
    destruct (String.eqb "/upload-dev" path) eqn:E5;
      [apply String.eqb_eq in E5; subst path; intros [= <-];
       apply AuthMiddleware_calls, Hup; tauto|].
    destruct (String.eqb "/signedurl-dev" path) eqn:E6;
      [apply String.eqb_eq in E6; subst path; intros [= <-];
       apply AuthMiddleware_calls, Hsu; tauto|].
    discriminate.
  - destruct (String.eqb "/health" path) eqn:E1;
      [apply String.eqb_eq in E1; subst path; by intros [= <-]|].
    destruct (String.eqb "/metrics" path) eqn:E2;
      [apply String.eqb_eq in E2; subst path; by intros [= <-]|].
    destruct (String.eqb "/upload" path) eqn:E3;
      [apply String.eqb_eq in E3; subst path; intros [= <-]; apply Hup; tauto|].
    discriminate.
Qed.

(** X14. Serving one request makes at most one storage call, and the
    route decides which: an upload only on /upload (with the client of the
    first bucket) or /upload-dev (second bucket), a signed-URL request only
    on /signedurl (first bucket) or /signedurl-dev (second bucket); on
    every other path storage is not called. *)
Theorem storage_calls_follow_the_route (config : Config) (cap : HijackCap)
    (r : Request) (s : World) :
  at_most_one_call (route_call config (URL_Path r)) s (serve config cap r s).
Proof.
  assert (Hmux : ∀ w s0, at_most_one_call (route_call config (URL_Path r)) s0
                           (ServeMux (authenticatedMux config) w r s0)).
  { intros w s0. unfold ServeMux. destruct (negb _ && negb _).
    - left. unfold Redirect. case_match; rewrite ?storage_Write, storage_WriteHeader; done.
    - destruct (lookup_pattern _ _) as [h|] eqn:E.
      + by apply (authenticatedMux_calls config _ h E).
      + left. unfold NotFound. by rewrite storage_Write, storage_WriteHeader. }
  assert (Hcors : ∀ w s0, at_most_one_call (route_call config (URL_Path r)) s0
                            (CORSMiddleware (AllowedOrigins config)
                               (ServeMux (authenticatedMux config)) w r s0)).
  { intros w s0. unfold CORSMiddleware.
    destruct (cors_headers_frame (AllowedOrigins config) r s0) as (_ & _ & Hsc & _).
    destruct (String.eqb (Method r) "OPTIONS").
    - left. by rewrite storage_WriteHeader.
    - destruct (Hmux w (cors_headers (AllowedOrigins config) r s0))
        as [E|(call & Hc & E)]; [left|right; exists call; split; [done|]];
        by rewrite E, Hsc. }
  unfold serve, handler, MetricsMiddleware.
  destruct (String.eqb (URL_Path r) "/metrics").
  - apply (Hcors (connWriter cap) (new_exchange s)).
  - unfold newResponseWriter. cbv zeta.
    match goal with
    | |- at_most_one_call _ _ (with_metrics _ (with_metrics _ (?inner ?w r ?s1))) =>
        destruct (Hcors w s1) as [E|(call & Hc & E)];
        [left|right; exists call; split; [done|]];
        cbn [storage_calls with_metrics]; exact E
    end.
Qed.

End StorageByRoute.

(** *** The CORS headers on every answer *)

Section HeaderKept.
Context `{GoLib} `{Storage}.
Variable key : string.
Hypothesis not_content_type :
  CanonicalMIMEHeaderKey "Content-Type" ≠ CanonicalMIMEHeaderKey key.
Hypothesis not_location :
  CanonicalMIMEHeaderKey "Location" ≠ CanonicalMIMEHeaderKey key.
Hypothesis not_nosniff :
  CanonicalMIMEHeaderKey "X-Content-Type-Options" ≠ CanonicalMIMEHeaderKey key.










End HeaderKept.



(** *** The histogram over a run *)


(** *** Object names and content types *)

Lemma drop_bytes_length (n : nat) (s : string) :
  String.length (drop_bytes n s) = (String.length s - n)%nat.
Proof.
  revert s. induction n as [|n IH]; intros [|c s]; simpl; try done.
Qed.

Lemma take_drop_bytes (n : nat) (s : string) :
  String.substring 0 n s +:+ drop_bytes n s = s.
Proof.
  revert s. induction n as [|n IH]; intros [|c s]; simpl; try done.
  change (String c (String.substring 0 n s +:+ drop_bytes n s) = String c s).
  by rewrite IH.
Qed.

Lemma get_drop_bytes (n j : nat) (s : string) :
  String.get j (drop_bytes n s) = String.get (n + j) s.
Proof.
  revert s. induction n as [|n IH]; intros [|c s]; simpl; try done.
Qed.

Lemma get_beyond (j : nat) (s : string) :
  (String.length s <= j)%nat → String.get j s = None.
Proof.
  revert j. induction s as [|c s IH]; intros j Hj; simpl in *; [done|].
  destruct j; [lia|]. apply IH. lia.
Qed.

Lemma drop_bytes_all (s : string) : drop_bytes (String.length s) s = EmptyString.
Proof. induction s; simpl; done. Qed.

Lemma occurs_false (c : ascii) (s : string) :
  (∀ j, String.get j s ≠ Some c) → occurs c s = false.
Proof.
  induction s as [|c' s IH]; intros Hget; simpl; [done|].
  destruct (Ascii.eqb c' c) eqn:E.
  - apply Ascii.eqb_eq in E. subst c'. by destruct (Hget 0%nat).
  - simpl. apply IH. intros j. apply (Hget (S j)).
Qed.

(** What [filepath.Ext] returns is a suffix of the path, holds no slash,
    and is empty or starts with a dot. *)
Lemma Ext_from_suffix (path : string) (n : nat) :
  (∀ j, (n <= j)%nat → String.get j path ≠ Some "/"%char) →
  ∃ i, (i <= String.length path)%nat
       ∧ Ext_from path n = drop_bytes i path
       ∧ (∀ j, (i <= j)%nat → String.get j path ≠ Some "/"%char).
Proof.
  assert (Hnone : ∃ i, (i <= String.length path)%nat
                       ∧ EmptyString = drop_bytes i path
                       ∧ (∀ j, (i <= j)%nat → String.get j path ≠ Some "/"%char)).
  { exists (String.length path). split; [done|]. split; [by rewrite drop_bytes_all|].
    intros j Hj. by rewrite get_beyond. }
  induction n as [|n IH]; intros Hclean; simpl; [done|].
  destruct (String.get n path) as [c|] eqn:Hc; [|done].
  destruct (Ascii.eqb c "/") eqn:Hslash; [done|].
  apply Ascii.eqb_neq in Hslash.
  assert (Hclean' : ∀ j, (n <= j)%nat → String.get j path ≠ Some "/"%char).
  { intros j Hj. destruct (decide (j = n)) as [->|Hne].
    - rewrite Hc. congruence.
    - apply Hclean. lia. }
  destruct (Ascii.eqb c ".") eqn:Hdot; [|by apply IH].
  exists n. split; [|done].
  destruct (decide (n <= String.length path)%nat); [done|].
  rewrite get_beyond in Hc by lia. done.
Qed.

Lemma Ext_suffix (path : string) :
  ∃ i, (i <= String.length path)%nat
       ∧ Ext path = drop_bytes i path
       ∧ occurs "/" (Ext path) = false.
Proof.
  destruct (Ext_from_suffix path (String.length path)) as (i & Hi & E & Hclean).
  { intros j Hj. by rewrite get_beyond. }
  exists i. split; [done|]. split; [done|]. unfold Ext. rewrite E.
  apply occurs_false. intros j. rewrite get_drop_bytes. apply Hclean. lia.
Qed.

Lemma get_within (j : nat) (s : string) :
  (j < String.length s)%nat → is_Some (String.get j s).
Proof.
  revert j. induction s as [|c s IH]; intros j Hj; simpl in *; [lia|].
  destruct j; [by eexists|]. apply IH. lia.
Qed.

(** What the second loop of [filepath.Base] returns holds no slash. *)
Lemma last_element_clean (path : string) (n : nat) :
  (n <= String.length path)%nat →
  (∀ j, (n <= j)%nat → String.get j path ≠ Some "/"%char) →
  occurs "/" (last_element path n) = false.
Proof.
  induction n as [|n IH]; intros Hn Hclean; cbn [last_element].
  - apply occurs_false. intros j. apply Hclean. lia.
  - destruct (get_within n path) as (c & Hc); [lia|]. rewrite Hc.
    destruct (Ascii.eqb c "/") eqn:Hslash.
    + apply occurs_false. intros j. rewrite get_drop_bytes. apply Hclean. lia.
    + apply Ascii.eqb_neq in Hslash. apply IH; [lia|]. intros j Hj.
      destruct (decide (j = n)) as [->|Hne]; [rewrite Hc; congruence|].
      apply Hclean. lia.
Qed.

(** [filepath.Base] returns a single slash or a name without slashes,
    never the empty string. *)
Lemma Base_clean (path : string) :
  Base path ≠ EmptyString ∧ (Base path = "/" ∨ occurs "/" (Base path) = false).
Proof.
  unfold Base. destruct path as [|c p]; [split; [done|by right]|].
  set (stripped := strip_trailing _ _).
  pose proof (last_element_clean stripped (String.length stripped)) as Hclean.
  destruct (last_element stripped (String.length stripped)) as [|c' p'].
  - split; [done|by left].
  - split; [done|]. right. apply Hclean; [done|].
    intros j Hj. by rewrite get_beyond.
Qed.

Lemma slice_to_Ext (filename : string) :
  ∃ stem,
    slice_to filename (Z.of_nat (String.length filename)
                       - Z.of_nat (String.length (Ext filename))) = Some stem
    ∧ stem +:+ Ext filename = filename.
Proof.
  destruct (Ext_suffix filename) as (i & Hi & E & _).
  unfold slice_to. rewrite E, drop_bytes_length.
  replace (Z.of_nat (String.length filename)
           - Z.of_nat (String.length filename - i)) with (Z.of_nat i) by lia.
  rewrite Nat2Z.id.
  replace ((0 <=? Z.of_nat i) && (Z.of_nat i <=? Z.of_nat (String.length filename)))
    with true by (symmetry; apply andb_true_iff; lia).
  eexists. split; [done|]. apply take_drop_bytes.
Qed.

Lemma occurs_get (c : ascii) (j : nat) (s : string) :
  String.get j s = Some c → occurs c s = true.
Proof.
  revert j. induction s as [|c' s IH]; intros j; simpl; [done|].
  destruct j as [|j].
  - intros [= ->]. by rewrite Ascii.eqb_refl.
  - intros Hj. rewrite (IH j Hj). apply orb_true_r.
Qed.

Lemma drop_bytes_app (pre s : string) : drop_bytes (String.length pre) (pre +:+ s) = s.
Proof. induction pre as [|c pre IH]; [done|]. exact IH. Qed.

Lemma has_suffix_split (s suffix : string) :
  HasSuffix s suffix = true → ∃ pre, s = pre +:+ suffix.
Proof.
  unfold HasSuffix. intros Hs. apply andb_true_iff in Hs as (_ & Hs).
  apply String.eqb_eq in Hs.
  pose proof (take_drop_bytes (String.length s - String.length suffix) s) as E.
  rewrite Hs in E. by eexists.
Qed.

(** A name that ends in a dot followed by bytes other than dot and slash
    has that ending as its [Ext]. *)
Lemma Ext_from_tail (pre suf : string) (k : nat) :
  occurs "/" suf = false → occurs "." suf = false →
  (k <= String.length suf)%nat →
  Ext_from (pre +:+ String "." suf) (S (k + String.length pre)) = String "." suf.
Proof.
  intros Hslash Hdot. induction k as [|k IH]; intros Hk; cbn [Ext_from].
  - rewrite <- (append_correct2 pre (String "." suf) 0%nat). simpl.
    apply drop_bytes_app.
  - rewrite <- (append_correct2 pre (String "." suf) (S k)).
    change (String.get (S k) (String "." suf)) with (String.get k suf).
    destruct (get_within k suf) as (c & Hc); [lia|]. rewrite Hc.
    destruct (Ascii.eqb c "/") eqn:E1.
    { apply Ascii.eqb_eq in E1. subst c. apply occurs_get in Hc. congruence. }
    destruct (Ascii.eqb c ".") eqn:E2.
    { apply Ascii.eqb_eq in E2. subst c. apply occurs_get in Hc. congruence. }
    apply IH. lia.
Qed.

Lemma string_length_app (s1 s2 : string) :
  String.length (s1 +:+ s2) = (String.length s1 + String.length s2)%nat.
Proof. induction s1 as [|c s1 IH]; [done|]. simpl. by rewrite IH. Qed.

Lemma Ext_of_suffix (name suf : string) :
  occurs "/" suf = false → occurs "." suf = false →
  HasSuffix name (String "." suf) = true → Ext name = String "." suf.
Proof.
  intros Hslash Hdot Hs. destruct (has_suffix_split _ _ Hs) as (pre & ->).
  unfold Ext. rewrite string_length_app. simpl String.length.
  replace (String.length pre + S (String.length suf))%nat
    with (S (String.length suf + String.length pre)) by lia.
  by apply Ext_from_tail.
Qed.

Section ContentTypes.
Context `{GoLib}.

(** X17. The content type the storage client gives an upload agrees with
    the type check of the handler only for lower-case names: a name the
    handler accepts and that is already in lower case has one of the
    accepted extensions as its [filepath.Ext], and gets the image type of
    the table for it; a name whose extension holds an upper-case letter
    gets application/octet-stream, although the handler accepts it when
    its lower-case form ends in an accepted extension. *)
Theorem accepted_name_content_type (filename : string) :
  (isValidImageType filename = true → ToLower filename = filename →
   Ext filename ∈ validExtensions
   ∧ HasSuffix filename (Ext filename) = true
   ∧ HasPrefix (getContentType (Ext filename)) "image/" = true)
  ∧ (all_bytes (λ c, negb (is_upper c)) (Ext filename) = false →
     getContentType (Ext filename) = "application/octet-stream").
Proof.
  split.
  - intros Hv Hlow. apply isValidImageType_loop_spec in Hv as (ext & Hin & Hs).
    rewrite Hlow in Hs.
    assert (E : Ext filename = ext).
    { unfold validExtensions in Hin.
      repeat (apply elem_of_cons in Hin as [->|Hin]; [by apply Ext_of_suffix|]).
      inversion Hin. }
    rewrite E. split; [done|]. split; [done|].
    unfold validExtensions in Hin.
    repeat (apply elem_of_cons in Hin as [->|Hin]; [reflexivity|]).
    inversion Hin.
  - intros Hup. unfold getContentType.
    destruct (contentTypes !! Ext filename) as [ct|] eqn:E; [|done].
    unfold contentTypes in E. apply elem_of_list_to_map_2 in E.
    repeat (apply elem_of_cons in E as [[= E _]|E]; [by rewrite E in Hup|]).
    inversion E.
Qed.

(** X18. The object name of an upload is always defined: the slice of
    the file name before its extension never goes out of range, the stem
    and the extension make up the file name, and the object is named by
    the time stamp, a dash, the base name of the stem and the extension.
    The base name is never empty and holds no slash unless it is the
    single slash (a stem of slashes only); the extension holds no slash. *)
Theorem object_name_of_upload (now : Z) (header : FileHeader) :
  ∃ stem,
    Filename header = stem +:+ Ext (Filename header)
    ∧ upload_target now header
      = Some (pretty now +:+ "-" +:+ sanitizeFilename stem +:+ Ext (Filename header),
              getContentType (Ext (Filename header)))
    ∧ sanitizeFilename stem ≠ EmptyString
    ∧ (sanitizeFilename stem = "/" ∨ occurs "/" (sanitizeFilename stem) = false)
    ∧ occurs "/" (Ext (Filename header)) = false.
Proof.
  destruct (slice_to_Ext (Filename header)) as (stem & Hslice & Hname).
  exists stem. split; [done|]. unfold upload_target. rewrite Hslice. simpl.
  split; [done|]. destruct (Base_clean stem) as (Hne & Hclean).
  split; [done|]. split; [done|].
  by destruct (Ext_suffix (Filename header)) as (_ & _ & _ & Hc).
Qed.

End ContentTypes.

(** A name in upper case passes the type check of the handler and is
    stored as application/octet-stream. *)
Lemma accepted_name_witness :
  isValidImageType "cat.PNG" = true
  ∧ getContentType (Ext "cat.PNG") = "application/octet-stream".
Proof.
  split; [reflexivity|].
  apply (proj2 (@accepted_name_content_type ref_GoLib "cat.PNG")). reflexivity.
Defined.
